(** * Session-key acquisition of the Aurora (mesos) client

    A shallow embedding of [src/python/twitter/mesos/session_key_helper.py]:
    the class [SessionKeyHelper] with its four methods [get_timestamp],
    [get_ods_key], [sign_session] and [acquire_session_key].

    The module talks to three collaborators that are not part of the
    repository: the ODS directory client, paramiko (the ssh-agent client and
    the RSA code) and the standard library ([os.getenv], [time.time],
    [base64], the logger).  Their answers are the fields of a record [World];
    every call that reaches outside the process is also recorded, in order, in
    a trace.  Python exceptions are an explicit outcome, and the [SessionKey]
    objects live in a store so that the in-place updates of [sign_session] are
    seen by its caller. *)

From Stdlib Require Import ZArith String Ascii DecimalString DecimalPos DecimalZ.
From stdpp Require Import base option list strings.

Local Open Scope string_scope.
Local Open Scope list_scope.

(** ** Strings *)

Module PyStr.

(** [str(n)] of a Python integer: decimal digits, a leading [-] when negative. *)
Definition str (n : Z) : string := NilZero.string_of_int (Z.to_int n).

(** [chr(10)], the line break inside the triple-quoted messages. *)
Definition nl : string := String (ascii_of_nat 10) EmptyString.

(** The characters [str.split()] treats as separators:
    space, [\t], [\n], [\x0b], [\x0c] and [\r]. *)
Definition isspace (c : ascii) : bool :=
  let n := nat_of_ascii c in
  Nat.eqb n 32 || (Nat.leb 9 n && Nat.leb n 13).

(** [s.split()]: the maximal runs of non-space characters, in order.
    [cur] holds the run being read, reversed. *)
Fixpoint split_go (s : string) (cur : list ascii) : list string :=
  let flush :=
    match cur with
    | [] => []
    | _ => [string_of_list_ascii (rev cur)]
    end in
  match s with
  | EmptyString => flush
  | String c rest =>
      if isspace c then flush ++ split_go rest []
      else split_go rest (c :: cur)
  end.

Definition split (s : string) : list string := split_go s [].

(** [s.startswith(p)]. *)
Definition startswith (s p : string) : bool := String.prefix p s.

End PyStr.

(** ** Exceptions *)

(** What the collaborators raise: paramiko's [SSHException] (with its
    subclasses), or any other subclass of [Exception] ([IndexError],
    [binascii.Error], [socket.error], ...), named by its class. *)
Inductive lib_exn : Type :=
| SSHException (msg : string)
| OtherException (cls msg : string).

(** The exceptions seen inside [SessionKeyHelper]: its three nested classes,
    which only its own code raises, and the collaborators' ones. *)
Inductive exn : Type :=
| LDAPError (msg : string)
| AgentError (msg : string)
| AuthorizationError (msg : string)
| Lib (e : lib_exn).

(** [str(e)], as used by ['%s' % e]. *)
Definition str_exn (e : exn) : string :=
  match e with
  | LDAPError m | AgentError m | AuthorizationError m => m
  | Lib (SSHException m) => m
  | Lib (OtherException _ m) => m
  end.

(** The result of a call into a collaborator. *)
Inductive lib_result (A : Type) : Type :=
| Ok (a : A)
| Fails (e : lib_exn).
Arguments Ok {A} a.
Arguments Fails {A} e.

(** ** Data *)

(** A key held by the ssh-agent (paramiko's [AgentKey]), known by its public
    blob; the private half never leaves the agent. *)
Record AgentKey : Type := { blob : string }.

(** A public key parsed from a directory record (paramiko's [RSAKey]),
    known by the decoded key data. *)
Record PKey : Type := { key_data : string }.

(** paramiko's [Agent]: the connection, if one was made, and the keys read
    from the agent when it was opened. *)
Record Agent : Type := { conn : option string; keys : list AgentKey }.

Definition get_keys (a : Agent) : list AgentKey := keys a.

(** paramiko's [Message]: a packet and a read position. *)
Record Message : Type := { packet : string; idx : nat }.

Definition Message_new (content : string) : Message :=
  {| packet := content; idx := 0 |}.

Definition rewind (m : Message) : Message :=
  {| packet := packet m; idx := 0 |}.

(** Modelled from the spec: the thrift struct [SessionKey] of
    [gen.twitter.mesos.ttypes], generated code that is not in the source tree.
    The spec's SessionCredential has an owner, an integer nonce and a
    signature; the code names the fields [user], [nonce] and [nonceSig].
    A thrift field that was never set is [None]. *)
Record SessionKey : Type := {
  user : option string;
  nonce : option Z;
  nonceSig : option string
}.

Definition set_nonce_field (ts : Z) (k : SessionKey) : SessionKey :=
  {| user := user k; nonce := Some ts; nonceSig := nonceSig k |}.

Definition set_nonceSig_field (sig : string) (k : SessionKey) : SessionKey :=
  {| user := user k; nonce := nonce k; nonceSig := Some sig |}.

(** ** The collaborators *)

Record World : Type := {
  (** [ODS()] *)
  ODS_init : lib_result unit;
  (** [ods.get_user(username)]: the user's entry, or [None] *)
  ods_get_user : string -> lib_result (option string);
  (** [ODS.query_keys(username, ods)]: the user's key lines *)
  ods_query_keys : string -> lib_result (list string);
  (** [base64.decodestring] *)
  base64_decodestring : string -> lib_result string;
  (** [RSAKey(data=...)] *)
  RSAKey_init : string -> lib_result PKey;
  (** the truth value of an [RSAKey] object *)
  PKey_bool : PKey -> bool;
  (** [Agent()] *)
  Agent_init : lib_result Agent;
  (** [key.sign_ssh_data(None, message)] *)
  sign_ssh_data : AgentKey -> string -> lib_result string;
  (** [ldap_key.verify_ssh_sig(message, signed_message)] *)
  verify_ssh_sig : PKey -> string -> Message -> lib_result bool;
  (** [os.getenv] *)
  getenv : string -> option string;
  (** [int(time.time() * 1000)] when read at the given instant; an instant is
      the number of outside calls made so far *)
  clock_ms : nat -> Z
}.

(** ** State, trace and the monad of the embedding *)

(** The calls that leave the process.  [EvAgentClose] stands for
    [Agent.close()]. *)
Inductive event : Type :=
| EvODS
| EvGetUser (username : string)
| EvQueryKeys (username : string)
| EvAgentOpen
| EvAgentClose
| EvSign (key : AgentKey) (message : string)
| EvVerify (ldap_key : PKey) (message : string) (signed_message : Message)
| EvGetenv (name : string)
| EvTime
| EvWarning (text : string).

(** A reference to a [SessionKey] object: its index in the store. *)
Abbreviation ref := nat (only parsing).

Record state : Type := {
  trace : list event;
  heap : list SessionKey
}.

Definition log_event (ev : event) (s : state) : state :=
  {| trace := trace s ++ [ev]; heap := heap s |}.

(** The instant at which the next outside call happens. *)
Definition now (s : state) : nat := length (trace s).

Inductive outcome (A : Type) : Type :=
| Return (a : A)
| Raise (e : exn).
Arguments Return {A} a.
Arguments Raise {A} e.

Definition M (A : Type) : Type := state -> outcome A * state.

Definition ret {A} (a : A) : M A := fun s => (Return a, s).

Definition raise {A} (e : exn) : M A := fun s => (Raise e, s).

Definition bind {A B} (m : M A) (k : A -> M B) : M B :=
  fun s =>
    match m s with
    | (Return a, s') => k a s'
    | (Raise e, s') => (Raise e, s')
    end.

(** [try: m  except Exception as e: h e] *)
Definition try_except {A} (m : M A) (h : exn -> M A) : M A :=
  fun s =>
    match m s with
    | (Return a, s') => (Return a, s')
    | (Raise e, s') => h e s'
    end.

(** [try: m  except SSHException, e: h msg] *)
Definition try_except_SSHException {A} (m : M A) (h : string -> M A) : M A :=
  fun s =>
    match m s with
    | (Raise (Lib (SSHException msg)), s') => h msg s'
    | r => r
    end.

Declare Scope py_scope.
Delimit Scope py_scope with py.
Notation "x <- m ;; k" := (bind m (fun x => k))
  (at level 20, m at level 99, k at level 200, only parsing) : py_scope.
Notation "m ;;; k" := (bind m (fun _ => k))
  (at level 100, k at level 200, only parsing, right associativity) : py_scope.
Local Open Scope py_scope.

Definition of_lib {A} (r : lib_result A) : outcome A :=
  match r with
  | Ok a => Return a
  | Fails e => Raise (Lib e)
  end.

(** An outside call: it is recorded, then it answers or raises. *)
Definition call {A} (ev : event) (r : lib_result A) : M A :=
  fun s => (of_lib r, log_event ev s).

(** A library function that does no input or output. *)
Definition pure_call {A} (r : lib_result A) : M A :=
  fun s => (of_lib r, s).

(** [SessionKey(user=owner)]: a new object. *)
Definition SessionKey_new (owner : string) : M ref :=
  fun s =>
    (Return (length (heap s)),
     {| trace := trace s;
        heap := heap s ++ [{| user := Some owner; nonce := None; nonceSig := None |}] |}).

(** [obj.field = v] *)
Definition setattr (f : SessionKey -> SessionKey) (r : ref) : M unit :=
  fun s => (Return tt, {| trace := trace s; heap := alter f r (heap s) |}).

(** ** [SessionKeyHelper] *)

Section SessionKeyHelper.

Variable w : World.

(** [log.warning(text)] *)
Definition log_warning (text : string) : M unit :=
  fun s => (Return tt, log_event (EvWarning text) s).

(** [os.getenv(name)] *)
Definition os_getenv (name : string) : M (option string) :=
  fun s => (Return (getenv w name), log_event (EvGetenv name) s).

(** [get_timestamp()]: [timestamp_in_ms = int(time.time() * 1000)]. *)
Definition get_timestamp : M Z :=
  fun s =>
    let timestamp_in_ms := clock_ms w (now s) in
    (Return timestamp_in_ms, log_event EvTime s).

(** The fixed message signed to find the matching key. *)
Definition challenge : string := "this is a very important message to keep safe.".

Definition msg_ldap (username : string) : string :=
  "Could not query " ++ username ++ " from ODS!".

Definition msg_agent_ssh (e : string) : string :=
  "Could not talk to SSH agent: " ++ e.

Definition msg_no_auth_sock : string :=
  "Cannot talk to your ssh-agent because your SSH_AUTH_SOCK environment variable is"
  ++ PyStr.nl ++
  "         not set up properly.  Make sure you have ssh agent forwarding set up correctly in"
  ++ PyStr.nl ++
  "         your ssh config.".

Definition msg_no_signable_key : string :=
  "Unable to find any signable SSH keys.  Make sure you've generated your SSH"
  ++ PyStr.nl ++
  "         keys and uploaded them to ods.twitter.com.".

Definition msg_no_valid_key (username : string) : string :=
  "Could not find valid key for " ++ username.

(** [key.split()[1]] *)
Definition second_field (key : string) : M string :=
  match PyStr.split key !! 1 with
  | Some f => ret f
  | None => raise (Lib (OtherException "IndexError" "list index out of range"))
  end.

(** The first loop of [get_ods_key]: the public keys parsed from the
    directory's lines, appended to [all_ldap_pubkeys]. *)
Fixpoint parse_ldap_pubkeys (lines : list string) (all_ldap_pubkeys : list PKey)
  : M (list PKey) :=
  match lines with
  | [] => ret all_ldap_pubkeys
  | key :: rest =>
      if PyStr.startswith key "ssh-rsa" then
        (field <- second_field key ;;
         data <- pure_call (base64_decodestring w field) ;;
         pkey <- pure_call (RSAKey_init w data) ;;
         if PKey_bool w pkey
         then parse_ldap_pubkeys rest (all_ldap_pubkeys ++ [pkey])
         else parse_ldap_pubkeys rest all_ldap_pubkeys)
      else parse_ldap_pubkeys rest all_ldap_pubkeys
  end.

(** The inner loop: [true] when [return key] was reached.  The message is
    rewound before every check, so each check reads it from its start; where
    a check leaves the read position is of no consequence. *)
Fixpoint verify_loop (message : string) (signed_message : Message)
    (ldap_keys : list PKey) : M bool :=
  match ldap_keys with
  | [] => ret false
  | ldap_key :: rest =>
      let signed_message := rewind signed_message in
      ok <- call (EvVerify ldap_key message signed_message)
                 (verify_ssh_sig w ldap_key message signed_message) ;;
      if (ok : bool) then ret true
      else verify_loop message signed_message rest
  end.

(** The outer loop: [Some key] when [return key] was reached, [None] when the
    loop ran to its end. *)
Fixpoint match_loop (all_ldap_pubkeys : list PKey) (agent_keys : list AgentKey)
  : M (option AgentKey) :=
  match agent_keys with
  | [] => ret None
  | key :: rest =>
      let message := challenge in
      signed_glob <- call (EvSign key message) (sign_ssh_data w key message) ;;
      let signed_message := Message_new signed_glob in
      found <- verify_loop message signed_message all_ldap_pubkeys ;;
      if (found : bool) then ret (Some key)
      else match_loop all_ldap_pubkeys rest
  end.

(** [get_ods_key(username)].  The result is a Python value: a key, or [None]. *)
Definition get_ods_key (username : string) : M (option AgentKey) :=
  ods <- call EvODS (ODS_init w) ;;
  u <- call (EvGetUser username) (ods_get_user w username) ;;
  match u with
  | None => raise (LDAPError (msg_ldap username))
  | Some _ =>
      lines <- call (EvQueryKeys username) (ods_query_keys w username) ;;
      all_ldap_pubkeys <- parse_ldap_pubkeys lines [] ;;
      agent <- try_except_SSHException
                 (call EvAgentOpen (Agent_init w))
                 (fun e => raise (AgentError (msg_agent_ssh e))) ;;
      found <- match_loop all_ldap_pubkeys (get_keys agent) ;;
      match found with
      | Some key => ret (Some key)
      | None =>
          sock <- os_getenv "SSH_AUTH_SOCK" ;;
          match sock with
          | None => raise (AgentError msg_no_auth_sock)
          | Some _ => raise (AgentError msg_no_signable_key)
          end
      end
  end.

(** [sign_session(session_key, username)] *)
Definition sign_session (session_key : ref) (username : string) : M unit :=
  key <- get_ods_key username ;;
  match key with
  | None => raise (AuthorizationError (msg_no_valid_key username))
  | Some key =>
      ts <- get_timestamp ;;
      let message := PyStr.str ts in
      signed_glob <- call (EvSign key message) (sign_ssh_data w key message) ;;
      setattr (set_nonce_field ts) session_key ;;;
      setattr (set_nonceSig_field signed_glob) session_key
  end.

(** The signature of a credential that was not signed. *)
Definition UNAUTHENTICATED : string := "UNAUTHENTICATED".

Definition msg_cannot_use (e : exn) : string :=
  "Cannot use SSH auth: " ++ str_exn e.

Definition msg_attempting : string := "Attempting un-authenticated communication".

(** [acquire_session_key(owner)] *)
Definition acquire_session_key (owner : string) : M ref :=
  key <- SessionKey_new owner ;;
  try_except
    (sign_session key owner)
    (fun e =>
       log_warning (msg_cannot_use e) ;;;
       log_warning msg_attempting ;;;
       ts <- get_timestamp ;;
       setattr (set_nonce_field ts) key ;;;
       setattr (set_nonceSig_field UNAUTHENTICATED) key) ;;;
  ret key.

End SessionKeyHelper.

(** ** Sample worlds

    Canned collaborators in the manner of a test double.  The directory knows
    alice (one DSA and two RSA lines), carol (one RSA line) and dave (no
    line); the agent holds the keys [A1] and [A2]; a signature is the signer's
    blob followed by the message, and a public key accepts the signatures
    made under its own data, so that [A2] is the private half of [K2]. *)

Module Sample.

Definition A1 : AgentKey := {| blob := "A1" |}.
Definition A2 : AgentKey := {| blob := "K2" |}.
Definition K1 : PKey := {| key_data := "K1" |}.
Definition K2 : PKey := {| key_data := "K2" |}.

Definition sign (key : AgentKey) (message : string) : string :=
  blob key ++ ":" ++ message.

Definition verify (p : PKey) (message : string) (m : Message) : bool :=
  String.eqb (String.substring (idx m) (String.length (packet m) - idx m) (packet m))
             (key_data p ++ ":" ++ message).

Definition alice_lines : list string :=
  [ "ssh-dss K0 alice@old"; "ssh-rsa K1 alice@desk"; "ssh-rsa K2 alice@laptop" ].

Definition carol_lines : list string := [ "ssh-rsa K9 carol@home" ].

Definition directory (u : string) : option (list string) :=
  if String.eqb u "alice" then Some alice_lines
  else if String.eqb u "carol" then Some carol_lines
  else if String.eqb u "dave" then Some []
  else None.

Definition sock : string := "/tmp/ssh-agent.sock".

Definition office : World := {|
  ODS_init := Ok tt;
  ods_get_user u := Ok (match directory u with Some _ => Some u | None => None end);
  ods_query_keys u := Ok (default [] (directory u));
  base64_decodestring s := Ok s;
  RSAKey_init d := Ok {| key_data := d |};
  PKey_bool _ := true;
  Agent_init := Ok {| conn := Some sock; keys := [A1; A2] |};
  sign_ssh_data k m := Ok (sign k m);
  verify_ssh_sig p m sm := Ok (verify p m sm);
  getenv n := if String.eqb n "SSH_AUTH_SOCK" then Some sock else None;
  clock_ms n := (1000 + 10 * Z.of_nat n)%Z
|}.

(** The same office seen from a shell without agent forwarding: no socket in
    the environment, an agent object without connection or keys, and another
    clock. *)
Definition no_forwarding : World := {|
  ODS_init := ODS_init office;
  ods_get_user := ods_get_user office;
  ods_query_keys := ods_query_keys office;
  base64_decodestring := base64_decodestring office;
  RSAKey_init := RSAKey_init office;
  PKey_bool := PKey_bool office;
  Agent_init := Ok {| conn := None; keys := [] |};
  sign_ssh_data := sign_ssh_data office;
  verify_ssh_sig := verify_ssh_sig office;
  getenv _ := None;
  clock_ms n := (5000 + Z.of_nat n)%Z
|}.

(** The same office at another time of day and with another environment. *)
Definition office_later : World := {|
  ODS_init := ODS_init office;
  ods_get_user := ods_get_user office;
  ods_query_keys := ods_query_keys office;
  base64_decodestring := base64_decodestring office;
  RSAKey_init := RSAKey_init office;
  PKey_bool := PKey_bool office;
  Agent_init := Agent_init office;
  sign_ssh_data := sign_ssh_data office;
  verify_ssh_sig := verify_ssh_sig office;
  getenv _ := None;
  clock_ms n := (777000 + 3 * Z.of_nat n)%Z
|}.

(** An agent that answers the key request with garbage. *)
Definition broken_agent : World := {|
  ODS_init := ODS_init office;
  ods_get_user := ods_get_user office;
  ods_query_keys := ods_query_keys office;
  base64_decodestring := base64_decodestring office;
  RSAKey_init := RSAKey_init office;
  PKey_bool := PKey_bool office;
  Agent_init := Fails (SSHException "could not get keys from ssh-agent");
  sign_ssh_data := sign_ssh_data office;
  verify_ssh_sig := verify_ssh_sig office;
  getenv := getenv office;
  clock_ms := clock_ms office
|}.

(** An agent that signs the challenge but refuses any other message. *)
Definition refusing_agent : World := {|
  ODS_init := ODS_init office;
  ods_get_user := ods_get_user office;
  ods_query_keys := ods_query_keys office;
  base64_decodestring := base64_decodestring office;
  RSAKey_init := RSAKey_init office;
  PKey_bool := PKey_bool office;
  Agent_init := Agent_init office;
  sign_ssh_data k m :=
    if String.eqb m challenge then Ok (sign k m)
    else Fails (SSHException "key cannot be used for signing");
  verify_ssh_sig := verify_ssh_sig office;
  getenv := getenv office;
  clock_ms := clock_ms office
|}.

(** The office with a directory that has one more line for alice, a bare
    [ssh-rsa] without key data. *)
Definition cluttered : World := {|
  ODS_init := ODS_init office;
  ods_get_user := ods_get_user office;
  ods_query_keys u := Ok (default [] (directory u) ++ ["ssh-rsa"]);
  base64_decodestring := base64_decodestring office;
  RSAKey_init := RSAKey_init office;
  PKey_bool := PKey_bool office;
  Agent_init := Agent_init office;
  sign_ssh_data := sign_ssh_data office;
  verify_ssh_sig := verify_ssh_sig office;
  getenv := getenv office;
  clock_ms := clock_ms office
|}.

(** The office with an agent whose first key cannot sign. *)
Definition locked_first_key : World := {|
  ODS_init := ODS_init office;
  ods_get_user := ods_get_user office;
  ods_query_keys := ods_query_keys office;
  base64_decodestring := base64_decodestring office;
  RSAKey_init := RSAKey_init office;
  PKey_bool := PKey_bool office;
  Agent_init := Agent_init office;
  sign_ssh_data k m :=
    if String.eqb (blob k) "A1" then Fails (SSHException "key cannot be used for signing")
    else Ok (sign k m);
  verify_ssh_sig := verify_ssh_sig office;
  getenv := getenv office;
  clock_ms := clock_ms office
|}.

Definition s0 : state := {| trace := []; heap := [] |}.

(** A state with some history and one credential already in the store. *)
Definition s1 : state := {|
  trace := [EvWarning "starting"];
  heap := [{| user := Some "erin"; nonce := Some 42%Z; nonceSig := Some "sig" |}]
|}.

End Sample.


(** ** Notions used by the statements *)

#[global] Instance AgentKey_eq_dec : EqDecision AgentKey.
Proof. solve_decision. Defined.
#[global] Instance PKey_eq_dec : EqDecision PKey.
Proof. solve_decision. Defined.
#[global] Instance Message_eq_dec : EqDecision Message.
Proof. solve_decision. Defined.
#[global] Instance event_eq_dec : EqDecision event.
Proof. solve_decision. Defined.

(** A state with no history and no objects. *)
Definition empty_state : state := {| trace := []; heap := [] |}.

(** A computation that only adds [evs] to the trace and ends with [r],
    whatever the state it starts from. *)
Definition runs_as {A} (m : M A) (r : outcome A) (evs : list event) : Prop :=
  forall s, m s = (r, {| trace := trace s ++ evs; heap := heap s |}).

(** Such a computation, all of whose events satisfy [P]. *)
Definition emits {A} (P : event -> Prop) (m : M A) : Prop :=
  exists r evs, runs_as m r evs /\ Forall P evs.

(** The events of the second loop: signing and checking. *)
Definition is_probe (ev : event) : Prop :=
  match ev with
  | EvSign _ _ | EvVerify _ _ _ => True
  | _ => False
  end.

(** Every event but [Agent.close()]. *)
Definition not_close (ev : event) : Prop := ev <> EvAgentClose.

(** A directory line of the supported type, as [get_ods_key] tests it. *)
Definition is_rsa_record (line : string) : bool := PyStr.startswith line "ssh-rsa".

(** The candidate keys [get_ods_key] builds from the directory's lines. *)
Definition ldap_pubkeys (w : World) (lines : list string) : outcome (list PKey) :=
  fst (parse_ldap_pubkeys w lines [] empty_state).

(** The world whose directory has forgotten every line that is not of the
    supported type. *)
Definition only_rsa_records (w : World) : World := {|
  ODS_init := ODS_init w;
  ods_get_user := ods_get_user w;
  ods_query_keys u :=
    match ods_query_keys w u with
    | Ok lines => Ok (filter (fun l => is_rsa_record l = true) lines)
    | Fails e => Fails e
    end;
  base64_decodestring := base64_decodestring w;
  RSAKey_init := RSAKey_init w;
  PKey_bool := PKey_bool w;
  Agent_init := Agent_init w;
  sign_ssh_data := sign_ssh_data w;
  verify_ssh_sig := verify_ssh_sig w;
  getenv := getenv w;
  clock_ms := clock_ms w
|}.

(** The events of probing one agent key that signs the challenge with [sig]
    against the candidates [pubs]. *)
Definition verify_events (sig : string) (pubs : list PKey) : list event :=
  map (fun p => EvVerify p challenge (Message_new sig)) pubs.

Definition probe_events (key : AgentKey) (sig : string) (pubs : list PKey) : list event :=
  EvSign key challenge :: verify_events sig pubs.

(** The agent's signature of the challenge under [key], when it gives one. *)
Definition challenge_sig (w : World) (key : AgentKey) : string :=
  match sign_ssh_data w key challenge with
  | Ok sig => sig
  | Fails _ => ""
  end.

(** [key] signs the challenge and the signature verifies under none of [pubs]. *)
Definition rejected (w : World) (pubs : list PKey) (key : AgentKey) : Prop :=
  exists sig, sign_ssh_data w key challenge = Ok sig /\
    Forall (fun p => verify_ssh_sig w p challenge (Message_new sig) = Ok false) pubs.

(** The events of probing keys that are all rejected. *)
Definition rejected_events (w : World) (pubs : list PKey) (agent_keys : list AgentKey)
  : list event :=
  flat_map (fun k => probe_events k (challenge_sig w k) pubs) agent_keys.

(** The state in which the second loop starts. *)
Definition at_loop (username : string) (s : state) : state :=
  log_event EvAgentOpen
    (log_event (EvQueryKeys username) (log_event (EvGetUser username) (log_event EvODS s))).

(** The directory and the agent both answer: the user is known, the lines
    [lines] are read into the candidates [pubs], and [Agent()] gives [agent]. *)
Definition reachable (w : World) (username : string)
    (lines : list string) (pubs : list PKey) (agent : Agent) : Prop :=
  ODS_init w = Ok tt /\
  (exists entry, ods_get_user w username = Ok (Some entry)) /\
  ods_query_keys w username = Ok lines /\
  ldap_pubkeys w lines = Return pubs /\
  Agent_init w = Ok agent.

(** The key a run of the match step selected, if it selected one. *)
Definition selected_key (r : outcome (option AgentKey)) : option AgentKey :=
  match r with
  | Return (Some k) => Some k
  | _ => None
  end.

(** Two worlds with the same directory and agent answers for [username]:
    the same directory entry and key lines, read the same way, the same agent
    keys, and the same results of signing and checking the challenge.  The
    clock and the environment are free. *)
Record same_match_inputs (w1 w2 : World) (username : string) : Prop := {
  same_ods : ODS_init w1 = ODS_init w2;
  same_user : ods_get_user w1 username = ods_get_user w2 username;
  same_lines : ods_query_keys w1 username = ods_query_keys w2 username;
  same_pubkeys : forall lines, ldap_pubkeys w1 lines = ldap_pubkeys w2 lines;
  same_agent : Agent_init w1 = Agent_init w2;
  same_sign : forall k, sign_ssh_data w1 k challenge = sign_ssh_data w2 k challenge;
  same_verify : forall p m, verify_ssh_sig w1 p challenge m = verify_ssh_sig w2 p challenge m
}.

(** The spec's failure kinds, as the exceptions of [get_ods_key] carry them:
    "not found" is the [AgentError] of the last [else]; "agent unavailable"
    is the [AgentError] raised for a failed [Agent()] or for an unset
    [SSH_AUTH_SOCK]. *)
Definition is_not_found (e : exn) : Prop := e = AgentError msg_no_signable_key.

Definition is_agent_unavailable (e : exn) : Prop :=
  e = AgentError msg_no_auth_sock \/ exists m, e = AgentError (msg_agent_ssh m).

(** The connections opened and not closed in a stretch of the trace. *)
Definition opened (evs : list event) : nat := length (filter (fun e => e = EvAgentOpen) evs).
Definition closed (evs : list event) : nat := length (filter (fun e => e = EvAgentClose) evs).

(** Every connection opened in a stretch of the trace is closed in it. *)
Definition all_closed (evs : list event) : Prop := closed evs = opened evs.

(** The credential of the fallback branch of [acquire_session_key]. *)
Definition unauthenticated_credential (owner : string) (ts : Z) : SessionKey :=
  {| user := Some owner; nonce := Some ts; nonceSig := Some UNAUTHENTICATED |}.

(** The state right after [SessionKey(user=owner)]. *)
Definition after_new (owner : string) (s : state) : state :=
  snd (SessionKey_new owner s).

(** An outcome that is a value or a collaborator's exception. *)
Definition lib_only {A} (r : outcome A) : Prop :=
  match r with
  | Return _ | Raise (Lib _) => True
  | Raise _ => False
  end.

(** ** Further notions: what a run touches *)

(** The events [get_ods_key] can cause: directory calls, agent calls and the
    reading of the environment; never the clock, never a warning. *)
Definition is_match_event (ev : event) : Prop :=
  match ev with
  | EvODS | EvGetUser _ | EvQueryKeys _ | EvAgentOpen
  | EvSign _ _ | EvVerify _ _ _ | EvGetenv _ => True
  | EvAgentClose | EvTime | EvWarning _ => False
  end.

Definition is_warning (ev : event) : Prop :=
  match ev with
  | EvWarning _ => True
  | _ => False
  end.

(** The calls that reach the ssh-agent or use a key it holds. *)
Definition contacts_agent (ev : event) : Prop :=
  match ev with
  | EvAgentOpen | EvSign _ _ | EvVerify _ _ _ => True
  | _ => False
  end.

(** The directory answers for [username]: the user is known and every one of
    the lines [lines] is read without error, giving the candidates [pubs]. *)
Definition directory_answers (w : World) (username : string)
    (lines : list string) (pubs : list PKey) : Prop :=
  ODS_init w = Ok tt /\
  (exists entry, ods_get_user w username = Ok (Some entry)) /\
  ods_query_keys w username = Ok lines /\
  ldap_pubkeys w lines = Return pubs.

(** A clock that never runs backwards. *)
Definition monotone_clock (w : World) : Prop :=
  forall i j, i <= j -> (clock_ms w i <= clock_ms w j)%Z.

(** The characters of [str(n)]: the ten digits and the sign. *)
Definition digit_or_minus (c : ascii) : bool :=
  let n := nat_of_ascii c in
  (Nat.leb 48 n && Nat.leb n 57) || Nat.eqb n 45.

(** All the characters of a string pass a test. *)
Fixpoint all_chars (P : ascii -> bool) (s : string) : bool :=
  match s with
  | EmptyString => true
  | String c rest => P c && all_chars P rest
  end.

(** * The command-line client

    A shallow embedding of parts of [src/python/twitter/mesos/bin/mesos_client.py]:
    [_die], [check_and_log_response], the decorators of [requires],
    [MesosCLI._getshards] and [MesosCLI.do_set_quota].  The scheduler client,
    the conversions [int] and [float], and the generated [ResponseCode] are
    parameters; the log lines and the calls to the scheduler are recorded in a
    trace. *)

Module MesosClient.

(** [s.split(sep)] for a separator of one character: the fields between the
    separators, the empty ones included. *)
Fixpoint split_on (sep : ascii) (s : string) : list string :=
  match s with
  | EmptyString => [EmptyString]
  | String c rest =>
      if Ascii.eqb c sep then EmptyString :: split_on sep rest
      else
        match split_on sep rest with
        | field :: fields => String c field :: fields
        | [] => [String c EmptyString]
        end
  end.

(** [sep.join(fields)] *)
Fixpoint join (sep : string) (fields : list string) : string :=
  match fields with
  | [] => EmptyString
  | [field] => field
  | field :: rest => field ++ sep ++ join sep rest
  end.

(** No character of the string is the separator. *)
Definition no_sep (sep : ascii) (s : string) : bool :=
  all_chars (fun c => negb (Ascii.eqb c sep)) s.

Definition comma : ascii := ascii_of_nat 44.
Definition newline : ascii := ascii_of_nat 10.

(** What the client's code raises or lets through. *)
Inductive cli_exn : Type :=
| SystemExit (code : Z)
| UnboundLocalError (name : string)
| KeyError (key : Z)
| TypeError (msg : string)
| Foreign (cls msg : string).

(** The answer of a collaborator: a value, or an exception of its own. *)
Inductive reply (A : Type) : Type :=
| Reply (a : A)
| Throws (cls msg : string).
Arguments Reply {A} a.
Arguments Throws {A} cls msg.

Inductive result (A : Type) : Type :=
| Done (a : A)
| Failed (e : cli_exn).
Arguments Done {A} a.
Arguments Failed {A} e.

(** The scheduler's response, as far as the client reads it. *)
Record Response : Type := { responseCode : Z; message : option string }.

(** The command-line options read here. *)
Record Options : Type := {
  cluster : option string;
  verbose : bool;
  shards : option string
}.

Section Client.

(** Python's floats. *)
Variable F : Type.

Inductive cli_event : Type :=
| LogFatal (msg : string)
| LogError (msg : string)
| LogInfo (msg : string)
| NewClient (cluster : option string) (verbose : bool)
| SetQuota (role : string) (cpu : F) (ram_mb disk_mb : Z).

Record Env : Type := {
  (** [float(s)] and [int(s)] of a string; [None] stands for [ValueError] *)
  py_float : string -> option F;
  py_int : string -> option Z;
  (** [MesosClientAPI(cluster=..., verbose=...)] *)
  MesosClientAPI_init : option string -> bool -> reply unit;
  (** [api.set_quota(role, cpu, ram_mb, disk_mb)] *)
  api_set_quota : string -> F -> Z -> Z -> reply Response;
  (** [ResponseCode.OK] and [ResponseCode._VALUES_TO_NAMES] *)
  ResponseCode_OK : Z;
  ResponseCode_VALUES_TO_NAMES : Z -> option string
}.

Variable env : Env.

Definition CM (A : Type) : Type := list cli_event -> result A * list cli_event.

Definition cret {A} (a : A) : CM A := fun t => (Done a, t).

Definition craise {A} (e : cli_exn) : CM A := fun t => (Failed e, t).

Definition cbind {A B} (m : CM A) (k : A -> CM B) : CM B :=
  fun t =>
    match m t with
    | (Done a, t') => k a t'
    | (Failed e, t') => (Failed e, t')
    end.

Definition emit (ev : cli_event) : CM unit := fun t => (Done tt, t ++ [ev]).

Definition ask {A} (ev : cli_event) (r : reply A) : CM A :=
  fun t =>
    (match r with
     | Reply a => Done a
     | Throws cls msg => Failed (Foreign cls msg)
     end, t ++ [ev]).

(** [_die(msg)]: [log.fatal(msg)], then [sys.exit(1)]. *)
Definition _die {A} (msg : string) : CM A :=
  cbind (emit (LogFatal msg)) (fun _ => craise (SystemExit 1)).

(** ['%s' % v] of a string that may be [None]. *)
Definition str_opt (v : option string) : string :=
  match v with
  | Some s => s
  | None => "None"
  end.

(** [check_and_log_response(resp)] *)
Definition check_and_log_response (resp : Response) : CM unit :=
  match ResponseCode_VALUES_TO_NAMES env (responseCode resp) with
  | None => craise (KeyError (responseCode resp))
  | Some name =>
      cbind (emit (LogInfo ("Response from scheduler: " ++ name ++
                            " (message: " ++ str_opt (message resp) ++ ")")))
        (fun _ =>
           if Z.eqb (responseCode resp) (ResponseCode_OK env) then cret tt
           else craise (SystemExit 1))
  end.

(** [doc.split('\n')[0]] *)
Definition first_line (doc : string) : string :=
  match split_on newline doc with
  | line :: _ => line
  | [] => EmptyString
  end.

(** [requires.wrap_function(fn, args, comparator)], applied to a line.  The
    function [fn] is given by its name, its docstring and what it does with
    the words of the line. *)
Definition wrap_function {A} (fn_name : string) (fn_doc : option string)
    (fn : list string -> CM A) (args : list string)
    (comparator : list string -> list string -> bool) (line : string) : CM A :=
  let sline := PyStr.split line in
  if negb (comparator sline args) then
    let help :=
      match fn_doc with
      | None | Some EmptyString => ("Incorrect parameters for " ++ fn_name)%string
      | Some doc =>
          (first_line doc ++ String newline (String newline
             "see the help subcommand for more details."))%string
      end in
    _die help
  else fn sline.

(** The decorators [requires.exactly] and [requires.at_least], applied to the
    parameter names [args] and to [fn]. *)
Definition exactly {A} (args : list string) (fn_name : string) (fn_doc : option string)
    (fn : list string -> CM A) : string -> CM A :=
  wrap_function fn_name fn_doc fn args
    (fun want got => Nat.eqb (length want) (length got)).

Definition at_least {A} (args : list string) (fn_name : string) (fn_doc : option string)
    (fn : list string -> CM A) : string -> CM A :=
  wrap_function fn_name fn_doc fn args
    (fun want got => Nat.leb (length got) (length want)).

(** [map(int, fields)]: the conversions in order, up to the first that fails. *)
Fixpoint map_int (fields : list string) : option (list Z) :=
  match fields with
  | [] => Some []
  | field :: rest =>
      match py_int env field with
      | None => None
      | Some n =>
          match map_int rest with
          | None => None
          | Some ns => Some (n :: ns)
          end
      end
  end.

(** [MesosCLI._getshards(self)] *)
Definition _getshards (options : Options) : CM (option (list Z)) :=
  match shards options with
  | None | Some EmptyString => cret None
  | Some sh =>
      match map_int (split_on comma sh) with
      | Some ids => cret (Some ids)
      | None => _die ("Invalid shards list: " ++ sh)
      end
  end.

(** The local variables of [do_set_quota] that its [try] block assigns. *)
Record quota_locals : Type := {
  cpu : option F;
  ram_mb : option Z;
  disk_mb : option Z
}.

(** The [try] block of [do_set_quota]: the assignments made before the first
    [ValueError], and whether one was raised. *)
Definition convert_quota (cpu_str ram_mb_str disk_mb_str : string) : quota_locals * bool :=
  match py_float env cpu_str with
  | None => ({| cpu := None; ram_mb := None; disk_mb := None |}, true)
  | Some c =>
      match py_int env ram_mb_str with
      | None => ({| cpu := Some c; ram_mb := None; disk_mb := None |}, true)
      | Some r =>
          match py_int env disk_mb_str with
          | None => ({| cpu := Some c; ram_mb := Some r; disk_mb := None |}, true)
          | Some d => ({| cpu := Some c; ram_mb := Some r; disk_mb := Some d |}, false)
          end
      end
  end.

(** Reading a local variable that may not have been assigned. *)
Definition read_local {A} (name : string) (v : option A) : CM A :=
  match v with
  | Some a => cret a
  | None => craise (UnboundLocalError name)
  end.

(** The body of [MesosCLI.do_set_quota]. *)
Definition do_set_quota (options : Options)
    (role cpu_str ram_mb_str disk_mb_str : string) : CM unit :=
  let (vars, value_error) := convert_quota cpu_str ram_mb_str disk_mb_str in
  cbind (if value_error then emit (LogError "Invalid value") else cret tt) (fun _ =>
  cbind (ask (NewClient (cluster options) (verbose options))
             (MesosClientAPI_init env (cluster options) (verbose options))) (fun _ =>
  cbind (read_local "cpu" (cpu vars)) (fun c =>
  cbind (read_local "ram_mb" (ram_mb vars)) (fun r =>
  cbind (read_local "disk_mb" (disk_mb vars)) (fun d =>
  cbind (ask (SetQuota role c r d) (api_set_quota env role c r d)) (fun resp =>
  check_and_log_response resp)))))).

Definition do_set_quota_doc : string :=
  "usage: set_quota --cluster=CLUSTER role cpu ramMb diskMb"
  ++ String newline (String newline
  "    Admin-only command."
  ++ String newline
  "    Alters the amount of production quota allocated to a user."
  ++ String newline
  "    ").

(** [do_set_quota] as the command loop calls it, under its decorator
    [@requires.exactly('role', 'cpu', 'ramMb', 'diskMb')]. *)
Definition set_quota_command (options : Options) : string -> CM unit :=
  exactly ["role"; "cpu"; "ramMb"; "diskMb"] "do_set_quota" (Some do_set_quota_doc)
    (fun sline =>
       match sline with
       | [role; cpu_str; ram_mb_str; disk_mb_str] =>
           do_set_quota options role cpu_str ram_mb_str disk_mb_str
       | _ => craise (TypeError "do_set_quota() takes exactly 5 arguments")
       end).

End Client.

Arguments py_float {F} e s.
Arguments py_int {F} e s.
Arguments MesosClientAPI_init {F} e cluster verbose.
Arguments api_set_quota {F} e role cpu ram_mb disk_mb.
Arguments ResponseCode_OK {F} e.
Arguments ResponseCode_VALUES_TO_NAMES {F} e code.
Arguments _die {F A} msg.
Arguments check_and_log_response {F} env resp.
Arguments wrap_function {F A} fn_name fn_doc fn args comparator line.
Arguments exactly {F A} args fn_name fn_doc fn.
Arguments at_least {F A} args fn_name fn_doc fn.
Arguments map_int {F} env fields.
Arguments _getshards {F} env options.
Arguments convert_quota {F} env cpu_str ram_mb_str disk_mb_str.
Arguments do_set_quota {F} env options role cpu_str ram_mb_str disk_mb_str.
Arguments set_quota_command {F} env options.
Arguments LogFatal {F} msg.
Arguments LogError {F} msg.
Arguments LogInfo {F} msg.
Arguments NewClient {F} cluster verbose.
Arguments SetQuota {F} role cpu ram_mb disk_mb.

(** A canned environment: floats are read as integers, integers as signed
    decimals, the scheduler accepts every quota but one over 64 cpus. *)
Definition sample_int (s : string) : option Z :=
  match NilZero.int_of_string s with
  | Some d => Some (Z.of_int d)
  | None => None
  end.

Definition sample_env : Env Z := {|
  py_float := sample_int;
  py_int := sample_int;
  MesosClientAPI_init _ _ := Reply tt;
  api_set_quota _ c _ _ :=
    Reply (if Z.leb c 64 then {| responseCode := 0; message := Some "ok" |}
           else {| responseCode := 1; message := None |});
  ResponseCode_OK := 0%Z;
  ResponseCode_VALUES_TO_NAMES code :=
    if Z.eqb code 0 then Some "OK" else if Z.eqb code 1 then Some "INVALID_REQUEST" else None
|}.

Definition sample_options (sh : option string) : Options :=
  {| cluster := Some "smf1"; verbose := false; shards := sh |}.

End MesosClient.

(** * Proofs *)

(** ** Running computations that only log *)

Lemma state_eta (s : state) : {| trace := trace s; heap := heap s |} = s.
Proof. by destruct s. Qed.

Lemma runs_as_ret {A} (a : A) : runs_as (ret a) (Return a) [].
Proof. intros s. unfold ret. by rewrite app_nil_r, state_eta. Qed.

Lemma runs_as_raise {A} (e : exn) : runs_as (@raise A e) (Raise e) [].
Proof. intros s. unfold raise. by rewrite app_nil_r, state_eta. Qed.

Lemma runs_as_call {A} ev (r : lib_result A) : runs_as (call ev r) (of_lib r) [ev].
Proof. by intros s. Qed.

Lemma runs_as_pure_call {A} (r : lib_result A) : runs_as (pure_call r) (of_lib r) [].
Proof. intros s. unfold pure_call. by rewrite app_nil_r, state_eta. Qed.

Lemma runs_as_getenv w name :
  runs_as (os_getenv w name) (Return (getenv w name)) [EvGetenv name].
Proof. by intros s. Qed.

Lemma runs_as_bind {A B} (m : M A) (k : A -> M B) a evs1 r evs2 :
  runs_as m (Return a) evs1 -> runs_as (k a) r evs2 ->
  runs_as (bind m k) r (evs1 ++ evs2).
Proof.
  intros Hm Hk s. unfold bind. rewrite Hm, Hk. simpl. by rewrite app_assoc.
Qed.

Lemma runs_as_bind_raise {A B} (m : M A) (k : A -> M B) e evs :
  runs_as m (Raise e) evs -> runs_as (bind m k) (Raise e) evs.
Proof. intros Hm s. unfold bind. by rewrite Hm. Qed.

Lemma runs_as_fst {A} (m : M A) r evs s : runs_as m r evs -> fst (m s) = r.
Proof. intros H. by rewrite H. Qed.

Lemma runs_as_inj {A} (m : M A) r1 evs1 r2 evs2 :
  runs_as m r1 evs1 -> runs_as m r2 evs2 -> r1 = r2 /\ evs1 = evs2.
Proof.
  intros H1 H2. specialize (H1 empty_state). rewrite H2 in H1.
  by inversion H1.
Qed.

Lemma emits_ret {A} P (a : A) : emits P (ret a).
Proof. exists (Return a), []. split; [apply runs_as_ret|constructor]. Qed.

Lemma emits_raise {A} P (e : exn) : emits P (@raise A e).
Proof. exists (Raise e), []. split; [apply runs_as_raise|constructor]. Qed.

Lemma emits_call {A} (P : event -> Prop) ev (r : lib_result A) :
  P ev -> emits P (call ev r).
Proof. intros H. exists (of_lib r), [ev]. split; [apply runs_as_call|by repeat constructor]. Qed.

Lemma emits_pure_call {A} P (r : lib_result A) : emits P (pure_call r).
Proof. exists (of_lib r), []. split; [apply runs_as_pure_call|constructor]. Qed.

Lemma emits_getenv (P : event -> Prop) w name :
  P (EvGetenv name) -> emits P (os_getenv w name).
Proof. intros H. eexists _, _. split; [apply runs_as_getenv|by repeat constructor]. Qed.

Lemma emits_bind {A B} P (m : M A) (k : A -> M B) :
  emits P m -> (forall a, emits P (k a)) -> emits P (bind m k).
Proof.
  intros (r & evs & Hm & HP) Hk. destruct r as [a|e].
  - destruct (Hk a) as (r' & evs' & Hk' & HP').
    exists r', (evs ++ evs'). split; [by eapply runs_as_bind|by apply Forall_app].
  - exists (Raise e), evs. split; [by eapply runs_as_bind_raise|done].
Qed.

Lemma emits_try_SSH {A} P (m : M A) (h : string -> M A) :
  emits P m -> (forall e, emits P (h e)) -> emits P (try_except_SSHException m h).
Proof.
  intros (r & evs & Hm & HP) Hh.
  destruct r as [a|[| | |[msg|cls msg]]];
    try (eexists _, evs; split; [|done];
         intros s; unfold try_except_SSHException; by rewrite Hm).
  destruct (Hh msg) as (r' & evs' & Hh' & HP').
  exists r', (evs ++ evs'). split; [|by apply Forall_app].
  intros s. unfold try_except_SSHException.
  rewrite Hm, Hh'. simpl. by rewrite app_assoc.
Qed.

Lemma emits_weaken {A} (P Q : event -> Prop) (m : M A) :
  (forall ev, P ev -> Q ev) -> emits P m -> emits Q m.
Proof.
  intros HPQ (r & evs & Hm & HP). exists r, evs. split; [done|].
  eapply Forall_impl; eauto.
Qed.

Create HintDb emits discriminated.
#[export] Hint Resolve emits_ret emits_raise emits_pure_call : emits.

(** ** The first loop: reading the directory's lines *)

Section Parse.

Variable w : World.

(** What one line contributes, in the terms of the loop body. *)
Lemma ldap_pubkeys_line key :
  ldap_pubkeys w [key] =
    if is_rsa_record key then
      match PyStr.split key !! 1 with
      | None => Raise (Lib (OtherException "IndexError" "list index out of range"))
      | Some field =>
          match base64_decodestring w field with
          | Fails e => Raise (Lib e)
          | Ok data =>
              match RSAKey_init w data with
              | Fails e => Raise (Lib e)
              | Ok pkey => Return (if PKey_bool w pkey then [pkey] else [])
              end
          end
      end
    else Return [].
Proof.
  unfold ldap_pubkeys, is_rsa_record. simpl.
  destruct (PyStr.startswith key "ssh-rsa"); [|done].
  unfold bind, second_field, pure_call.
  destruct (PyStr.split key !! 1) as [field|]; [|done]. simpl.
  destruct (base64_decodestring w field) as [data|e]; [|done]. simpl.
  destruct (RSAKey_init w data) as [pkey|e]; [|done]. simpl.
  by destruct (PKey_bool w pkey).
Qed.

(** The loop leaves the state alone and appends, line after line, what each
    line contributes. *)
Lemma parse_ldap_pubkeys_step key rest acc s :
  parse_ldap_pubkeys w (key :: rest) acc s =
    match ldap_pubkeys w [key] with
    | Return l => parse_ldap_pubkeys w rest (acc ++ l) s
    | Raise e => (Raise e, s)
    end.
Proof.
  rewrite ldap_pubkeys_line. unfold is_rsa_record. simpl.
  destruct (PyStr.startswith key "ssh-rsa"); [|by rewrite app_nil_r].
  unfold bind, second_field, pure_call.
  destruct (PyStr.split key !! 1) as [field|]; [|done]. simpl.
  destruct (base64_decodestring w field) as [data|e]; [|done]. simpl.
  destruct (RSAKey_init w data) as [pkey|e]; [|done]. simpl.
  destruct (PKey_bool w pkey); [done|by rewrite app_nil_r].
Qed.

Lemma parse_ldap_pubkeys_run lines : forall acc s,
  parse_ldap_pubkeys w lines acc s =
    (match ldap_pubkeys w lines with
     | Return l => Return (acc ++ l)
     | Raise e => Raise e
     end, s).
Proof.
  induction lines as [|key rest IH]; intros acc s.
  - simpl. unfold ret. by rewrite app_nil_r.
  - rewrite parse_ldap_pubkeys_step.
    unfold ldap_pubkeys at 2. rewrite parse_ldap_pubkeys_step.
    destruct (ldap_pubkeys w [key]) as [l|e]; [|done].
    rewrite !IH. simpl.
    destruct (ldap_pubkeys w rest) as [l'|e]; [|done].
    by rewrite app_assoc.
Qed.

(** The candidates of a list of lines are those of its lines, in order. *)
Lemma ldap_pubkeys_cons key rest :
  ldap_pubkeys w (key :: rest) =
    match ldap_pubkeys w [key] with
    | Return l =>
        match ldap_pubkeys w rest with
        | Return l' => Return (l ++ l')
        | Raise e => Raise e
        end
    | Raise e => Raise e
    end.
Proof.
  unfold ldap_pubkeys at 1. rewrite parse_ldap_pubkeys_step.
  destruct (ldap_pubkeys w [key]) as [l|e]; [|done].
  by rewrite parse_ldap_pubkeys_run.
Qed.

Lemma ldap_pubkeys_nil : ldap_pubkeys w [] = Return [].
Proof. done. Qed.

Lemma ldap_pubkeys_skip key rest :
  is_rsa_record key = false -> ldap_pubkeys w (key :: rest) = ldap_pubkeys w rest.
Proof.
  intros H. rewrite ldap_pubkeys_cons, ldap_pubkeys_line, H.
  by destruct (ldap_pubkeys w rest).
Qed.

Lemma ldap_pubkeys_lib_only lines : lib_only (ldap_pubkeys w lines).
Proof.
  induction lines as [|key rest IH]; [done|].
  rewrite ldap_pubkeys_cons, ldap_pubkeys_line.
  destruct (is_rsa_record key).
  - destruct (PyStr.split key !! 1) as [field|]; [|done].
    destruct (base64_decodestring w field) as [data|e]; [|done].
    destruct (RSAKey_init w data) as [pkey|e]; [|done].
    by destruct (ldap_pubkeys w rest) as [|[]].
  - by destruct (ldap_pubkeys w rest) as [|[]].
Qed.

(** Every candidate comes from a line of the supported type. *)
Lemma ldap_pubkeys_origin lines : forall pubs p,
  ldap_pubkeys w lines = Return pubs -> p ∈ pubs ->
  exists line, line ∈ lines /\ is_rsa_record line = true /\
               ldap_pubkeys w [line] = Return [p].
Proof.
  induction lines as [|key rest IH]; intros pubs p Hl Hp.
  - inversion Hl; subst. by apply elem_of_nil in Hp.
  - rewrite ldap_pubkeys_cons in Hl.
    destruct (ldap_pubkeys w [key]) as [l|e] eqn:Hkey; [|done].
    destruct (ldap_pubkeys w rest) as [l'|e] eqn:Hrest; [|done].
    inversion Hl; subst. apply elem_of_app in Hp as [Hp|Hp].
    + exists key. split; [apply list_elem_of_here|].
      rewrite ldap_pubkeys_line in Hkey.
      destruct (is_rsa_record key) eqn:Hrsa.
      * split; [done|]. rewrite ldap_pubkeys_line, Hrsa.
        destruct (PyStr.split key !! 1) as [field|]; [|done].
        destruct (base64_decodestring w field) as [data|e]; [|done].
        destruct (RSAKey_init w data) as [pkey|e]; [|done].
        destruct (PKey_bool w pkey); inversion Hkey; subst.
        -- apply list_elem_of_singleton in Hp. by subst.
        -- by apply elem_of_nil in Hp.
      * inversion Hkey; subst. by apply elem_of_nil in Hp.
    + destruct (IH l' p eq_refl Hp) as (line & Hin & Hrsa & Hline).
      exists line. split; [by apply list_elem_of_further|done].
Qed.

End Parse.

(** ** The second loop: probing the agent's keys *)

Section Match.

Variable w : World.

Lemma rewind_Message_new sig : rewind (Message_new sig) = Message_new sig.
Proof. done. Qed.

Lemma rewind_idem m : rewind (rewind m) = rewind m.
Proof. done. Qed.

Lemma verify_loop_step message sm p rest s :
  verify_loop w message sm (p :: rest) s =
    match verify_ssh_sig w p message (rewind sm) with
    | Ok true => (Return true, log_event (EvVerify p message (rewind sm)) s)
    | Ok false =>
        verify_loop w message (rewind sm) rest
          (log_event (EvVerify p message (rewind sm)) s)
    | Fails e => (Raise (Lib e), log_event (EvVerify p message (rewind sm)) s)
    end.
Proof.
  simpl. unfold bind, call.
  by destruct (verify_ssh_sig w p message (rewind sm)) as [[]|].
Qed.

Lemma verify_loop_emits message sm pubs :
  emits is_probe (verify_loop w message sm pubs).
Proof.
  revert sm. induction pubs as [|p rest IH]; intros sm; simpl.
  - auto with emits.
  - apply emits_bind; [by apply emits_call|].
    intros []; auto with emits.
Qed.

Lemma verify_loop_lib_only message sm pubs s :
  lib_only (fst (verify_loop w message sm pubs s)).
Proof.
  revert sm s. induction pubs as [|p rest IH]; intros sm s; [done|].
  rewrite verify_loop_step.
  destruct (verify_ssh_sig w p message (rewind sm)) as [[]|]; simpl; auto.
Qed.

(** No candidate accepts: every one of them is checked, in order. *)
Lemma verify_loop_rejects sig pubs :
  Forall (fun p => verify_ssh_sig w p challenge (Message_new sig) = Ok false) pubs ->
  runs_as (verify_loop w challenge (Message_new sig) pubs)
          (Return false) (verify_events sig pubs).
Proof.
  induction 1 as [|p rest Hp _ IH]; intros s.
  - simpl. unfold ret. by rewrite app_nil_r, state_eta.
  - rewrite verify_loop_step, rewind_Message_new, Hp, IH.
    unfold log_event, verify_events. simpl. by rewrite <- app_assoc.
Qed.

(** A candidate accepts: the ones before it are checked, then it, and no other. *)
Lemma verify_loop_accepts sig before p after :
  Forall (fun q => verify_ssh_sig w q challenge (Message_new sig) = Ok false) before ->
  verify_ssh_sig w p challenge (Message_new sig) = Ok true ->
  runs_as (verify_loop w challenge (Message_new sig) (before ++ p :: after))
          (Return true) (verify_events sig (before ++ [p])).
Proof.
  intros Hbefore Hp. induction Hbefore as [|q rest Hq _ IH]; intros s.
  - simpl app. by rewrite verify_loop_step, rewind_Message_new, Hp.
  - simpl app. rewrite verify_loop_step, rewind_Message_new, Hq, IH.
    unfold log_event, verify_events. simpl. by rewrite <- app_assoc.
Qed.

Lemma verify_loop_true_inv message sm pubs s :
  fst (verify_loop w message sm pubs s) = Return true ->
  exists p, p ∈ pubs /\ verify_ssh_sig w p message (rewind sm) = Ok true.
Proof.
  revert sm s. induction pubs as [|p rest IH]; intros sm s; [done|].
  rewrite verify_loop_step.
  destruct (verify_ssh_sig w p message (rewind sm)) as [[]|] eqn:Hv; simpl;
    [| |done].
  - intros _. exists p. split; [apply list_elem_of_here|done].
  - intros H. apply IH in H as (q & Hq & Hv'). rewrite rewind_idem in Hv'.
    exists q. split; [by apply list_elem_of_further|done].
Qed.

Lemma verify_loop_false_inv message sm pubs s :
  fst (verify_loop w message sm pubs s) = Return false ->
  Forall (fun p => verify_ssh_sig w p message (rewind sm) = Ok false) pubs.
Proof.
  revert sm s. induction pubs as [|p rest IH]; intros sm s; [by constructor|].
  rewrite verify_loop_step.
  destruct (verify_ssh_sig w p message (rewind sm)) as [[]|] eqn:Hv; simpl;
    [done| |done].
  intros H. apply IH in H. rewrite rewind_idem in H. by constructor.
Qed.

Lemma match_loop_step pubs key rest s :
  match_loop w pubs (key :: rest) s =
    match sign_ssh_data w key challenge with
    | Fails e => (Raise (Lib e), log_event (EvSign key challenge) s)
    | Ok sig =>
        match verify_loop w challenge (Message_new sig) pubs
                (log_event (EvSign key challenge) s) with
        | (Return true, s') => (Return (Some key), s')
        | (Return false, s') => match_loop w pubs rest s'
        | (Raise e, s') => (Raise e, s')
        end
    end.
Proof.
  simpl. unfold bind, call.
  destruct (sign_ssh_data w key challenge) as [sig|]; [|done]. simpl.
  by destruct (verify_loop w challenge (Message_new sig) pubs _) as [[[]|] ?].
Qed.

Lemma match_loop_emits pubs agent_keys :
  emits is_probe (match_loop w pubs agent_keys).
Proof.
  induction agent_keys as [|key rest IH]; simpl.
  - auto with emits.
  - apply emits_bind; [by apply emits_call|]. intros sig.
    apply emits_bind; [apply verify_loop_emits|].
    intros []; auto with emits.
Qed.

Lemma match_loop_lib_only pubs agent_keys s :
  lib_only (fst (match_loop w pubs agent_keys s)).
Proof.
  revert s. induction agent_keys as [|key rest IH]; intros s; [done|].
  rewrite match_loop_step.
  destruct (sign_ssh_data w key challenge) as [sig|]; [|done].
  pose proof (verify_loop_lib_only challenge (Message_new sig) pubs
                (log_event (EvSign key challenge) s)) as Hl.
  destruct (verify_loop w challenge (Message_new sig) pubs _) as [[[]|] ?];
    simpl in *; auto.
Qed.

Lemma match_loop_rejects pubs agent_keys :
  Forall (rejected w pubs) agent_keys ->
  runs_as (match_loop w pubs agent_keys) (Return None) (rejected_events w pubs agent_keys).
Proof.
  induction 1 as [|key rest (sig & Hsig & Hrej) _ IH]; intros s.
  - simpl. unfold ret. by rewrite app_nil_r, state_eta.
  - rewrite match_loop_step, Hsig, (verify_loop_rejects _ _ Hrej), IH.
    unfold rejected_events, log_event, probe_events, challenge_sig. simpl.
    rewrite Hsig. f_equal. f_equal. by rewrite <- !app_assoc.
Qed.

(** The first key that a candidate accepts is returned at once. *)
Lemma match_loop_first_match pubs earlier key later sig before p after :
  Forall (rejected w pubs) earlier ->
  sign_ssh_data w key challenge = Ok sig ->
  pubs = before ++ p :: after ->
  Forall (fun q => verify_ssh_sig w q challenge (Message_new sig) = Ok false) before ->
  verify_ssh_sig w p challenge (Message_new sig) = Ok true ->
  runs_as (match_loop w pubs (earlier ++ key :: later)) (Return (Some key))
          (rejected_events w pubs earlier ++
           EvSign key challenge :: verify_events sig (before ++ [p])).
Proof.
  intros Hearlier Hsig -> Hbefore Hp.
  induction Hearlier as [|k rest (sg & Hsg & Hrej) _ IH]; intros s.
  - simpl app. rewrite match_loop_step, Hsig.
    rewrite (verify_loop_accepts _ _ _ after Hbefore Hp).
    unfold log_event. simpl. by rewrite <- app_assoc.
  - simpl app. rewrite match_loop_step, Hsg, (verify_loop_rejects _ _ Hrej), IH.
    unfold rejected_events, log_event, probe_events, challenge_sig. simpl.
    rewrite Hsg. f_equal. f_equal. by rewrite <- !app_assoc.
Qed.

Lemma match_loop_Some_inv pubs agent_keys key s :
  fst (match_loop w pubs agent_keys s) = Return (Some key) ->
  exists earlier later sig p,
    agent_keys = earlier ++ key :: later /\
    Forall (rejected w pubs) earlier /\
    sign_ssh_data w key challenge = Ok sig /\
    p ∈ pubs /\
    verify_ssh_sig w p challenge (Message_new sig) = Ok true.
Proof.
  revert s. induction agent_keys as [|k rest IH]; intros s; [done|].
  rewrite match_loop_step.
  destruct (sign_ssh_data w k challenge) as [sig|] eqn:Hsig; [|done].
  destruct (verify_loop w challenge (Message_new sig) pubs _) as [[[]|] s'] eqn:Hv;
    simpl; [| |done].
  - intros [= ->].
    apply (f_equal fst) in Hv. apply verify_loop_true_inv in Hv as (p & Hp & Hok).
    exists [], rest, sig, p. by repeat split.
  - intros H. apply IH in H as (earlier & later & sg & p & -> & He & Hsg & Hp & Hok).
    apply (f_equal fst) in Hv. apply verify_loop_false_inv in Hv.
    exists (k :: earlier), later, sg, p. repeat split; try done.
    constructor; [|done]. by exists sig.
Qed.

Lemma match_loop_None_inv pubs agent_keys s :
  fst (match_loop w pubs agent_keys s) = Return None ->
  Forall (rejected w pubs) agent_keys.
Proof.
  revert s. induction agent_keys as [|k rest IH]; intros s; [by constructor|].
  rewrite match_loop_step.
  destruct (sign_ssh_data w k challenge) as [sig|] eqn:Hsig; [|done].
  destruct (verify_loop w challenge (Message_new sig) pubs _) as [[[]|] s'] eqn:Hv;
    simpl; [done| |done].
  intros H. apply IH in H.
  apply (f_equal fst) in Hv. apply verify_loop_false_inv in Hv.
  constructor; [|done]. by exists sig.
Qed.

End Match.

(** ** [get_ods_key], path by path *)

Section GetOdsKey.

Variable w : World.

Lemma get_ods_key_paths username s :
  get_ods_key w username s =
    match ODS_init w with
    | Fails e => (Raise (Lib e), log_event EvODS s)
    | Ok _ =>
        let s1 := log_event (EvGetUser username) (log_event EvODS s) in
        match ods_get_user w username with
        | Fails e => (Raise (Lib e), s1)
        | Ok None => (Raise (LDAPError (msg_ldap username)), s1)
        | Ok (Some _) =>
            let s2 := log_event (EvQueryKeys username) s1 in
            match ods_query_keys w username with
            | Fails e => (Raise (Lib e), s2)
            | Ok lines =>
                match ldap_pubkeys w lines with
                | Raise e => (Raise e, s2)
                | Return pubs =>
                    match Agent_init w with
                    | Fails (SSHException m) =>
                        (Raise (AgentError (msg_agent_ssh m)), at_loop username s)
                    | Fails e => (Raise (Lib e), at_loop username s)
                    | Ok agent =>
                        match match_loop w pubs (get_keys agent) (at_loop username s) with
                        | (Return (Some key), s3) => (Return (Some key), s3)
                        | (Return None, s3) =>
                            (Raise (AgentError
                                      match getenv w "SSH_AUTH_SOCK" with
                                      | None => msg_no_auth_sock
                                      | Some _ => msg_no_signable_key
                                      end),
                             log_event (EvGetenv "SSH_AUTH_SOCK") s3)
                        | (Raise e, s3) => (Raise e, s3)
                        end
                    end
                end
            end
        end
    end.
Proof.
  unfold get_ods_key, bind at 1, call at 1.
  destruct (ODS_init w) as [[]|e]; [|done]. simpl.
  unfold bind at 1, call at 1.
  destruct (ods_get_user w username) as [[entry|]|e]; [|done|done]. simpl.
  unfold bind at 1, call at 1.
  destruct (ods_query_keys w username) as [lines|e]; [|done]. simpl.
  unfold bind at 1. rewrite parse_ldap_pubkeys_run.
  destruct (ldap_pubkeys w lines) as [pubs|e]; [|done]. simpl.
  unfold bind at 1, try_except_SSHException, call at 1.
  destruct (Agent_init w) as [agent|[m|cls m]]; [|done|done]. simpl.
  unfold bind at 1, at_loop.
  destruct (match_loop w pubs (get_keys agent) _) as [[[key|]|e] s3]; [done| |done].
  unfold bind, os_getenv.
  by destruct (getenv w "SSH_AUTH_SOCK").
Qed.

Lemma trace_at_loop username s :
  at_loop username s =
    {| trace := trace s ++ [EvODS; EvGetUser username; EvQueryKeys username; EvAgentOpen];
       heap := heap s |}.
Proof. unfold at_loop, log_event. simpl. by rewrite <- !app_assoc. Qed.

Lemma get_ods_key_emits username : emits not_close (get_ods_key w username).
Proof.
  unfold get_ods_key.
  apply emits_bind; [by apply emits_call|]. intros _.
  apply emits_bind; [by apply emits_call|]. intros [entry|]; [|auto with emits].
  apply emits_bind; [by apply emits_call|]. intros lines.
  apply emits_bind.
  { eexists _, []. split; [|constructor].
    intros s. by rewrite parse_ldap_pubkeys_run, app_nil_r, state_eta. }
  intros pubs. apply emits_bind.
  { apply emits_try_SSH; [by apply emits_call|auto with emits]. }
  intros agent. apply emits_bind.
  { eapply emits_weaken; [|apply match_loop_emits]. by intros []. }
  intros [key|]; [auto with emits|].
  apply emits_bind; [by apply emits_getenv|].
  intros [sock|]; auto with emits.
Qed.

(** The match step neither reads nor writes the store, only adds to the
    trace, and ends the same way from every state. *)
Lemma get_ods_key_frame username s :
  exists evs,
    snd (get_ods_key w username s) = {| trace := trace s ++ evs; heap := heap s |} /\
    Forall not_close evs /\
    fst (get_ods_key w username s) = fst (get_ods_key w username empty_state).
Proof.
  destruct (get_ods_key_emits username) as (r & evs & H & HP).
  exists evs. by rewrite !H.
Qed.

End GetOdsKey.

Section GetOdsKeyCases.

Variable w : World.

Lemma get_ods_key_reachable username lines pubs agent s :
  reachable w username lines pubs agent ->
  get_ods_key w username s =
    match match_loop w pubs (get_keys agent) (at_loop username s) with
    | (Return (Some key), s3) => (Return (Some key), s3)
    | (Return None, s3) =>
        (Raise (AgentError
                  match getenv w "SSH_AUTH_SOCK" with
                  | None => msg_no_auth_sock
                  | Some _ => msg_no_signable_key
                  end),
         log_event (EvGetenv "SSH_AUTH_SOCK") s3)
    | (Raise e, s3) => (Raise e, s3)
    end.
Proof.
  intros (Hods & (entry & Huser) & Hlines & Hpubs & Hagent).
  by rewrite get_ods_key_paths, Hods, Huser, Hlines, Hpubs, Hagent.
Qed.

(** A returned value is a key, and it was returned from inside the loop. *)
Lemma get_ods_key_Return_inv username s r :
  fst (get_ods_key w username s) = Return r ->
  exists key lines pubs agent,
    r = Some key /\
    reachable w username lines pubs agent /\
    fst (match_loop w pubs (get_keys agent) (at_loop username s)) = Return (Some key).
Proof.
  rewrite get_ods_key_paths.
  destruct (ODS_init w) as [[]|] eqn:Hods; [|done].
  destruct (ods_get_user w username) as [[entry|]|] eqn:Huser; [|done|done].
  destruct (ods_query_keys w username) as [lines|] eqn:Hlines; [|done].
  destruct (ldap_pubkeys w lines) as [pubs|] eqn:Hpubs; [|done].
  destruct (Agent_init w) as [agent|[|]] eqn:Hagent; [|done|done].
  destruct (match_loop w pubs (get_keys agent) _) as [[[key|]|e] s3] eqn:Hloop;
    [|done|done].
  intros [= <-]. exists key, lines, pubs, agent.
  split; [done|]. split; [by repeat split; eauto|]. by rewrite Hloop.
Qed.

(** The ways [get_ods_key] raises: a collaborator's exception passes through;
    [LDAPError] is for the unknown user; [AgentError] is for a failed
    [Agent()], or for a loop that ran to its end, with the message chosen by
    [SSH_AUTH_SOCK]. *)
Lemma get_ods_key_Raise_inv username s e :
  fst (get_ods_key w username s) = Raise e ->
  (exists le, e = Lib le) \/
  (e = LDAPError (msg_ldap username) /\
     ODS_init w = Ok tt /\ ods_get_user w username = Ok None) \/
  (exists m, e = AgentError (msg_agent_ssh m) /\
     Agent_init w = Fails (SSHException m)) \/
  (exists lines pubs agent,
     reachable w username lines pubs agent /\
     Forall (rejected w pubs) (get_keys agent) /\
     ((e = AgentError msg_no_auth_sock /\ getenv w "SSH_AUTH_SOCK" = None) \/
      (e = AgentError msg_no_signable_key /\
         exists sock, getenv w "SSH_AUTH_SOCK" = Some sock))).
Proof.
  rewrite get_ods_key_paths.
  destruct (ODS_init w) as [[]|] eqn:Hods; [|intros [= <-]; eauto].
  destruct (ods_get_user w username) as [[entry|]|] eqn:Huser;
    [|intros [= <-]; eauto|intros [= <-]; eauto].
  destruct (ods_query_keys w username) as [lines|] eqn:Hlines; [|intros [= <-]; eauto].
  pose proof (ldap_pubkeys_lib_only w lines) as Hl.
  destruct (ldap_pubkeys w lines) as [pubs|e'] eqn:Hpubs.
  2:{ intros [= <-]. destruct e'; try done. eauto. }
  destruct (Agent_init w) as [agent|[|]] eqn:Hagent;
    [|intros [= <-]; eauto 6|intros [= <-]; eauto].
  pose proof (match_loop_lib_only w pubs (get_keys agent) (at_loop username s)) as Hm.
  destruct (match_loop w pubs (get_keys agent) _) as [[[key|]|e'] s3] eqn:Hloop;
    [done| |].
  - intros [= <-]. do 3 right. exists lines, pubs, agent.
    split; [by repeat split; eauto|].
    split; [eapply match_loop_None_inv; by rewrite Hloop|].
    destruct (getenv w "SSH_AUTH_SOCK"); eauto.
  - intros [= <-]. destruct e'; try done. eauto.
Qed.

End GetOdsKeyCases.

(** ** [sign_session] and [acquire_session_key], path by path *)

Section SignSession.

Variable w : World.

Lemma sign_session_paths session_key username s :
  sign_session w session_key username s =
    match get_ods_key w username s with
    | (Raise e, s1) => (Raise e, s1)
    | (Return None, s1) => (Raise (AuthorizationError (msg_no_valid_key username)), s1)
    | (Return (Some key), s1) =>
        let ts := clock_ms w (now s1) in
        let s2 := log_event (EvSign key (PyStr.str ts)) (log_event EvTime s1) in
        match sign_ssh_data w key (PyStr.str ts) with
        | Fails e => (Raise (Lib e), s2)
        | Ok sig =>
            (Return tt,
             {| trace := trace s2;
                heap := alter (set_nonceSig_field sig) session_key
                          (alter (set_nonce_field ts) session_key (heap s2)) |})
        end
    end.
Proof.
  unfold sign_session, bind at 1.
  destruct (get_ods_key w username s) as [[[key|]|e] s1]; [|done|done].
  unfold bind, get_timestamp, call, setattr. simpl.
  by destruct (sign_ssh_data w key (PyStr.str (clock_ms w (now s1)))).
Qed.

Lemma acquire_session_key_paths owner s :
  acquire_session_key w owner s =
    let key := length (heap s) in
    match sign_session w key owner (after_new owner s) with
    | (Return _, s1) => (Return key, s1)
    | (Raise e, s1) =>
        let s2 := log_event EvTime
                    (log_event (EvWarning msg_attempting)
                       (log_event (EvWarning (msg_cannot_use e)) s1)) in
        (Return key,
         {| trace := trace s2;
            heap := alter (set_nonceSig_field UNAUTHENTICATED) key
                      (alter (set_nonce_field
                                (clock_ms w (now (log_event (EvWarning msg_attempting)
                                   (log_event (EvWarning (msg_cannot_use e)) s1)))))
                         key (heap s2)) |})
    end.
Proof.
  unfold acquire_session_key, bind at 1, SessionKey_new at 1, after_new. simpl.
  unfold bind at 1, try_except.
  by destruct (sign_session w (length (heap s)) owner _) as [[[]|e] s1].
Qed.

End SignSession.

Section SignSessionCases.

Variable w : World.

(** A raising [sign_session] has not touched the store. *)
Lemma sign_session_Raise_inv session_key username s e s' :
  sign_session w session_key username s = (Raise e, s') ->
  heap s' = heap s /\ exists evs, trace s' = trace s ++ evs /\ Forall not_close evs.
Proof.
  rewrite sign_session_paths.
  destruct (get_ods_key_frame w username s) as (evs & Hsnd & Hnc & _).
  destruct (get_ods_key w username s) as [[[key|]|e1] s1]; simpl in Hsnd; subst s1.
  - simpl. destruct (sign_ssh_data w key _); [done|].
    intros [= <- <-]. simpl. split; [done|].
    eexists. rewrite <- !app_assoc. split; [done|].
    apply Forall_app. split; [done|]. by repeat constructor.
  - intros [= <- <-]. simpl. eauto.
  - intros [= <- <-]. simpl. eauto.
Qed.

(** A returning [sign_session] found a key, read the clock, had the agent
    sign the decimal form of the reading, and stored both. *)
Lemma sign_session_Return_inv session_key username s s' :
  sign_session w session_key username s = (Return tt, s') ->
  exists key s1 sig,
    get_ods_key w username s = (Return (Some key), s1) /\
    sign_ssh_data w key (PyStr.str (clock_ms w (now s1))) = Ok sig /\
    trace s' = trace s1 ++ [EvTime; EvSign key (PyStr.str (clock_ms w (now s1)))] /\
    heap s' = alter (set_nonceSig_field sig) session_key
                (alter (set_nonce_field (clock_ms w (now s1))) session_key (heap s)).
Proof.
  rewrite sign_session_paths.
  destruct (get_ods_key_frame w username s) as (evs & Hsnd & _ & _).
  destruct (get_ods_key w username s) as [[[key|]|e1] s1]; simpl in Hsnd; [|done|done].
  simpl. destruct (sign_ssh_data w key _) as [sig|] eqn:Hsig; [|done].
  intros [= <-]. exists key, s1, sig. simpl.
  repeat split; try done.
  - by rewrite <- app_assoc.
  - by subst s1.
Qed.

End SignSessionCases.

(** ** The decimal form of the nonce *)

Lemma str_decimal (n : Z) :
  NilZero.int_of_string (PyStr.str n) = Some (Z.to_int n).
Proof.
  unfold PyStr.str. apply NilZero.isi; destruct n as [|p|p]; simpl; try done.
  - intros [= H]. by apply DecimalPos.Unsigned.to_uint_nonnil in H.
  - intros [= H]. by apply DecimalPos.Unsigned.to_uint_nonnil in H.
Qed.


(** ** The fallback of [acquire_session_key] *)

Lemma heap_after_new owner s :
  heap (after_new owner s) !! length (heap s) =
    Some {| user := Some owner; nonce := None; nonceSig := None |}.
Proof.
  unfold after_new, SessionKey_new. simpl.
  rewrite lookup_app_r; [|done]. by rewrite Nat.sub_diag.
Qed.

Lemma acquire_session_key_fallback w owner s e s1 :
  sign_session w (length (heap s)) owner (after_new owner s) = (Raise e, s1) ->
  exists s',
    acquire_session_key w owner s = (Return (length (heap s)), s') /\
    trace s' = trace s1 ++ [EvWarning (msg_cannot_use e); EvWarning msg_attempting; EvTime] /\
    heap s' !! length (heap s) =
      Some (unauthenticated_credential owner (clock_ms w (length (trace s1) + 2))).
Proof.
  intros Hsign. rewrite acquire_session_key_paths. simpl. rewrite Hsign.
  eexists. split; [done|]. simpl.
  apply sign_session_Raise_inv in Hsign as (Hheap & _).
  split; [by rewrite <- !app_assoc|].
  rewrite !list_lookup_alter_eq, Hheap, heap_after_new. simpl.
  unfold unauthenticated_credential, now, set_nonceSig_field. simpl.
  do 3 f_equal. rewrite !length_app. simpl. f_equal. lia.
Qed.

Lemma acquire_session_key_signed w owner s s1 :
  sign_session w (length (heap s)) owner (after_new owner s) = (Return tt, s1) ->
  acquire_session_key w owner s = (Return (length (heap s)), s1) /\
  exists key s2 sig,
    get_ods_key w owner (after_new owner s) = (Return (Some key), s2) /\
    sign_ssh_data w key (PyStr.str (clock_ms w (now s2))) = Ok sig /\
    trace s1 = trace s2 ++ [EvTime; EvSign key (PyStr.str (clock_ms w (now s2)))] /\
    heap s1 !! length (heap s) =
      Some {| user := Some owner;
              nonce := Some (clock_ms w (now s2));
              nonceSig := Some sig |}.
Proof.
  intros Hsign. split.
  { rewrite acquire_session_key_paths. simpl. by rewrite Hsign. }
  apply sign_session_Return_inv in Hsign as (key & s2 & sig & Hkey & Hsig & Htr & Hheap).
  exists key, s2, sig. repeat split; try done.
  by rewrite Hheap, !list_lookup_alter_eq, heap_after_new.
Qed.

(** * Properties of the session-key helper *)

(** C1. [acquire_session_key] never raises.  It returns the reference of the
    credential it created; and whenever [sign_session] raised, whatever the
    exception (an [LDAPError], an [AgentError], an [AuthorizationError] or any
    exception of a collaborator), two warnings were logged, the cause and then
    the announcement of unauthenticated communication, the clock was read
    after them, and the credential holds the owner, that reading as nonce and
    the signature ["UNAUTHENTICATED"]. *)
Theorem acquire_session_key_never_raises (w : World) (owner : string) (s : state) :
  exists s',
    acquire_session_key w owner s = (Return (length (heap s)), s') /\
    forall e s1,
      sign_session w (length (heap s)) owner (after_new owner s) = (Raise e, s1) ->
      trace s' = trace s1 ++
                 [EvWarning (msg_cannot_use e); EvWarning msg_attempting; EvTime] /\
      heap s' !! length (heap s) =
        Some (unauthenticated_credential owner (clock_ms w (length (trace s1) + 2))).
Proof.
  destruct (sign_session w (length (heap s)) owner (after_new owner s))
    as [[[]|e] s1] eqn:Hsign.
  - apply acquire_session_key_signed in Hsign as (Hrun & _).
    exists s1. split; [done|]. by intros e s2.
  - apply acquire_session_key_fallback in Hsign as (s' & Hrun & Htr & Hheap).
    exists s'. split; [done|]. by intros e' s2 [= <- <-].
Qed.

Lemma acquire_session_key_never_raises_witness :
  exists s',
    acquire_session_key Sample.office "bob" Sample.s1 = (Return 1, s') /\
    trace s' =
      [EvWarning "starting"; EvODS; EvGetUser "bob";
       EvWarning "Cannot use SSH auth: Could not query bob from ODS!";
       EvWarning "Attempting un-authenticated communication"; EvTime] /\
    heap s' !! 1 = Some (unauthenticated_credential "bob" 1050).
Proof.
  destruct (acquire_session_key_never_raises Sample.office "bob" Sample.s1)
    as (s' & Hrun & Hfall).
  exists s'. split; [exact Hrun|].
  exact (Hfall (LDAPError (msg_ldap "bob")) _ eq_refl).
Defined.

(** C10. [sign_session] writes the credential only at its very end: when it
    raises, in the match step or at the signing of the nonce, the store is
    as it was, so the credential it was given still has its nonce and its
    signature; when it returns, the agent has signed, the signing is the last
    outside call, and the two fields hold the nonce and that signature. *)
Theorem sign_session_atomic (w : World) (session_key : ref) (username : string) (s : state) :
  match sign_session w session_key username s with
  | (Raise _, s') =>
      heap s' = heap s /\ heap s' !! session_key = heap s !! session_key
  | (Return _, s') =>
      exists key ts sig evs,
        sign_ssh_data w key (PyStr.str ts) = Ok sig /\
        trace s' = trace s ++ evs ++ [EvSign key (PyStr.str ts)] /\
        heap s' = alter (set_nonceSig_field sig) session_key
                    (alter (set_nonce_field ts) session_key (heap s))
  end.
Proof.
  destruct (sign_session w session_key username s) as [[[]|e] s'] eqn:Hsign.
  - apply sign_session_Return_inv in Hsign as (key & s1 & sig & Hkey & Hsig & Htr & Hheap).
    destruct (get_ods_key_frame w username s) as (evs & Hsnd & _ & _).
    rewrite Hkey in Hsnd. simpl in Hsnd. subst s1.
    exists key, (clock_ms w (now {| trace := trace s ++ evs; heap := heap s |})),
      sig, (evs ++ [EvTime]).
    repeat split; try done.
    rewrite Htr. simpl. by rewrite <- !app_assoc.
  - apply sign_session_Raise_inv in Hsign as (Hheap & _). by rewrite Hheap.
Qed.

(** C9. [get_ods_key] never returns [None]: it returns a key or raises; so
    the [AuthorizationError] branch of [sign_session] is never taken. *)
Theorem get_ods_key_never_None (w : World) (username : string) (s : state) :
  fst (get_ods_key w username s) <> Return None /\
  forall session_key m,
    fst (sign_session w session_key username s) <> Raise (AuthorizationError m).
Proof.
  assert (fst (get_ods_key w username s) <> Return None) as Hnone.
  { intros H. by apply get_ods_key_Return_inv in H as (key & ? & ? & ? & ? & _). }
  split; [done|]. intros session_key m. rewrite sign_session_paths.
  destruct (get_ods_key w username s) as [[[key|]|e] s1] eqn:Hkey; simpl in *.
  - by destruct (sign_ssh_data w key _).
  - done.
  - intros [= ->]. apply (f_equal fst) in Hkey.
    apply get_ods_key_Raise_inv in Hkey
      as [(? & ?)|[(? & _)|[(? & ? & _)|(? & ? & ? & _ & _ & [[? _]|[? _]])]]]; done.
Qed.

(** C6. [get_ods_key] raises [LDAPError] exactly when the directory answers
    and [get_user] finds no entry; for a user the directory knows, also one
    with no key line at all, it does not. *)
Theorem LDAPError_iff_unknown_user (w : World) (username : string) (s : state) :
  ((exists m, fst (get_ods_key w username s) = Raise (LDAPError m)) <->
   (ODS_init w = Ok tt /\ ods_get_user w username = Ok None)) /\
  (forall entry,
     ods_get_user w username = Ok (Some entry) ->
     ods_query_keys w username = Ok [] ->
     forall m, fst (get_ods_key w username s) <> Raise (LDAPError m)).
Proof.
  assert ((exists m, fst (get_ods_key w username s) = Raise (LDAPError m)) ->
          ODS_init w = Ok tt /\ ods_get_user w username = Ok None) as Hif.
  { intros (m & H). apply get_ods_key_Raise_inv in H
      as [(? & ?)|[(? & ?)|[(? & ? & _)|(? & ? & ? & _ & _ & [[? _]|[? _]])]]]; done. }
  split; [split; [done|]|].
  - intros (Hods & Huser). exists (msg_ldap username).
    by rewrite get_ods_key_paths, Hods, Huser.
  - intros entry Huser _ m H.
    destruct Hif as (_ & Hnone); [by exists m|]. congruence.
Qed.

Lemma LDAPError_iff_unknown_user_witness :
  fst (get_ods_key Sample.office "bob" Sample.s0) = Raise (LDAPError (msg_ldap "bob")) /\
  forall m, fst (get_ods_key Sample.office "dave" Sample.s0) <> Raise (LDAPError m).
Proof.
  split; [reflexivity|].
  exact (proj2 (LDAPError_iff_unknown_user Sample.office "dave" Sample.s0)
           "dave" eq_refl eq_refl).
Defined.

(** C3. [sign_session] reads the clock once the key is found, has the agent
    sign the decimal string of that very reading with the matched key, and
    stores the reading and the signature; the string reads back as the
    nonce.  Hence a credential returned by [acquire_session_key] whose
    signature is not ["UNAUTHENTICATED"] holds a nonce that is the clock
    reading made right before the signing, and the agent's signature of the
    decimal string of that nonce. *)
Theorem sign_session_nonce (w : World) (owner : string) (s : state) :
  (forall session_key s',
     sign_session w session_key owner s = (Return tt, s') ->
     exists key s1 sig,
       get_ods_key w owner s = (Return (Some key), s1) /\
       let ts := clock_ms w (now s1) in
       sign_ssh_data w key (PyStr.str ts) = Ok sig /\
       NilZero.int_of_string (PyStr.str ts) = Some (Z.to_int ts) /\
       trace s' = trace s1 ++ [EvTime; EvSign key (PyStr.str ts)] /\
       heap s' = alter (set_nonceSig_field sig) session_key
                   (alter (set_nonce_field ts) session_key (heap s))) /\
  (forall r s' c,
     acquire_session_key w owner s = (Return r, s') ->
     heap s' !! r = Some c ->
     nonceSig c <> Some UNAUTHENTICATED ->
     exists key s1 sig,
       get_ods_key w owner (after_new owner s) = (Return (Some key), s1) /\
       let ts := clock_ms w (now s1) in
       sign_ssh_data w key (PyStr.str ts) = Ok sig /\
       trace s' = trace s1 ++ [EvTime; EvSign key (PyStr.str ts)] /\
       c = {| user := Some owner; nonce := Some ts; nonceSig := Some sig |}).
Proof.
  split.
  - intros session_key s' Hsign.
    apply sign_session_Return_inv in Hsign as (key & s1 & sig & Hkey & Hsig & Htr & Hheap).
    exists key, s1, sig. simpl. by rewrite str_decimal.
  - intros r s' c Hrun Hc Hsig.
    destruct (sign_session w (length (heap s)) owner (after_new owner s))
      as [[[]|e] s1] eqn:Hsign.
    + apply acquire_session_key_signed in Hsign
        as (Hrun' & key & s2 & sig & Hkey & Hsg & Htr & Hheap).
      rewrite Hrun' in Hrun. injection Hrun as <- <-.
      exists key, s2, sig. simpl. repeat split; try done.
      rewrite Hheap in Hc. by injection Hc.
    + apply acquire_session_key_fallback in Hsign as (s2 & Hrun' & _ & Hheap).
      rewrite Hrun' in Hrun. injection Hrun as <- <-.
      rewrite Hheap in Hc. injection Hc as <-. done.
Qed.

Lemma sign_session_nonce_witness :
  exists key s1 sig,
    get_ods_key Sample.office "alice" (after_new "alice" Sample.s0)
      = (Return (Some key), s1) /\
    let ts := clock_ms Sample.office (now s1) in
    sign_ssh_data Sample.office key (PyStr.str ts) = Ok sig /\
    trace (snd (acquire_session_key Sample.office "alice" Sample.s0))
      = trace s1 ++ [EvTime; EvSign key (PyStr.str ts)] /\
    {| user := Some "alice"; nonce := Some 1100%Z; nonceSig := Some "K2:1100" |}
      = {| user := Some "alice"; nonce := Some ts; nonceSig := Some sig |}.
Proof.
  apply (proj2 (sign_session_nonce Sample.office "alice" Sample.s0) 0
           (snd (acquire_session_key Sample.office "alice" Sample.s0))).
  - reflexivity.
  - reflexivity.
  - discriminate.
Defined.

(** C2. When the directory and the agent answer, [get_ods_key] probes the
    agent's keys in the agent's order: it has each key sign the challenge,
    once, and checks the signature under the candidate keys in the
    directory's order.  Keys rejected by every candidate are passed over;
    the first key that some candidate accepts is returned, and nothing is
    signed or checked after the accepting check: no later candidate, no
    later agent key. *)
Theorem get_ods_key_first_match (w : World) (username : string)
    (lines : list string) (pubs : list PKey) (agent : Agent)
    (earlier later : list AgentKey) (key : AgentKey) (sig : string)
    (before after : list PKey) (p : PKey) (s : state) :
  reachable w username lines pubs agent ->
  get_keys agent = earlier ++ key :: later ->
  Forall (rejected w pubs) earlier ->
  sign_ssh_data w key challenge = Ok sig ->
  pubs = before ++ p :: after ->
  Forall (fun q => verify_ssh_sig w q challenge (Message_new sig) = Ok false) before ->
  verify_ssh_sig w p challenge (Message_new sig) = Ok true ->
  get_ods_key w username s =
    (Return (Some key),
     {| trace := trace s
                 ++ [EvODS; EvGetUser username; EvQueryKeys username; EvAgentOpen]
                 ++ rejected_events w pubs earlier
                 ++ EvSign key challenge :: verify_events sig (before ++ [p]);
        heap := heap s |}).
Proof.
  intros Hreach Hkeys Hearlier Hsig Hpubs Hbefore Hp.
  rewrite (get_ods_key_reachable _ _ _ _ _ _ Hreach), Hkeys.
  rewrite (match_loop_first_match w pubs earlier key later sig before p after)
    by done.
  rewrite trace_at_loop. simpl. by rewrite <- !app_assoc.
Qed.

Lemma get_ods_key_first_match_witness :
  get_ods_key Sample.office "alice" Sample.s0 =
    (Return (Some Sample.A2),
     {| trace :=
          [EvODS; EvGetUser "alice"; EvQueryKeys "alice"; EvAgentOpen;
           EvSign Sample.A1 challenge;
           EvVerify Sample.K1 challenge (Message_new (Sample.sign Sample.A1 challenge));
           EvVerify Sample.K2 challenge (Message_new (Sample.sign Sample.A1 challenge));
           EvSign Sample.A2 challenge;
           EvVerify Sample.K1 challenge (Message_new (Sample.sign Sample.A2 challenge));
           EvVerify Sample.K2 challenge (Message_new (Sample.sign Sample.A2 challenge))];
        heap := [] |}).
Proof.
  apply (get_ods_key_first_match Sample.office "alice" Sample.alice_lines
           [Sample.K1; Sample.K2] {| conn := Some Sample.sock; keys := [Sample.A1; Sample.A2] |}
           [Sample.A1] [] Sample.A2 (Sample.sign Sample.A2 challenge)
           [Sample.K1] [] Sample.K2 Sample.s0).
  - repeat split; try reflexivity. by exists "alice".
  - reflexivity.
  - constructor; [|constructor].
    exists (Sample.sign Sample.A1 challenge). split; [reflexivity|].
    repeat constructor.
  - reflexivity.
  - reflexivity.
  - repeat constructor.
  - reflexivity.
Defined.

(** ** The two diagnostics of a loop that found nothing *)

Lemma not_found_not_unavailable e : is_not_found e -> ~ is_agent_unavailable e.
Proof.
  intros -> [H|(m & H)]; injection H as H; discriminate H.
Qed.

(** C4. When the directory and the agent answer, [SSH_AUTH_SOCK] is set and
    every agent key is rejected, [get_ods_key] raises the "not found"
    [AgentError].  That exception is never one of the two "agent unavailable"
    ones, which are [AgentError]s as well and differ from it by their
    message; and those are raised only when [Agent()] failed with an
    [SSHException] or when [SSH_AUTH_SOCK] is not set. *)
Theorem not_found_is_not_agent_unavailable (w : World) (username : string) (s : state) :
  (forall lines pubs agent sock,
     reachable w username lines pubs agent ->
     Forall (rejected w pubs) (get_keys agent) ->
     getenv w "SSH_AUTH_SOCK" = Some sock ->
     exists e, fst (get_ods_key w username s) = Raise e /\
               is_not_found e /\ ~ is_agent_unavailable e) /\
  (forall e,
     fst (get_ods_key w username s) = Raise e ->
     is_agent_unavailable e ->
     (exists m, Agent_init w = Fails (SSHException m)) \/
     getenv w "SSH_AUTH_SOCK" = None).
Proof.
  split.
  - intros lines pubs agent sock Hreach Hrej Hsock.
    exists (AgentError msg_no_signable_key).
    split; [|split; [done|by apply not_found_not_unavailable]].
    rewrite (get_ods_key_reachable _ _ _ _ _ _ Hreach).
    rewrite (match_loop_rejects _ _ _ Hrej). simpl. by rewrite Hsock.
  - intros e Hraise Hun.
    apply get_ods_key_Raise_inv in Hraise
      as [(le & ->)|[(-> & _)|[(m & -> & Hagent)|
          (lines & pubs & agent & _ & _ & [[-> Hsock]|[-> _]])]]].
    + by destruct Hun as [|(? & ?)].
    + by destruct Hun as [|(? & ?)].
    + eauto.
    + by right.
    + by apply not_found_not_unavailable in Hun.
Qed.

Lemma not_found_is_not_agent_unavailable_witness :
  (exists e, fst (get_ods_key Sample.office "carol" Sample.s0) = Raise e /\
             is_not_found e /\ ~ is_agent_unavailable e) /\
  ((exists m, Agent_init Sample.no_forwarding = Fails (SSHException m)) \/
   getenv Sample.no_forwarding "SSH_AUTH_SOCK" = None) /\
  ((exists m, Agent_init Sample.broken_agent = Fails (SSHException m)) \/
   getenv Sample.broken_agent "SSH_AUTH_SOCK" = None).
Proof.
  split; [|split].
  - apply (proj1 (not_found_is_not_agent_unavailable Sample.office "carol" Sample.s0)
             Sample.carol_lines [{| key_data := "K9" |}]
             {| conn := Some Sample.sock; keys := [Sample.A1; Sample.A2] |} Sample.sock).
    + repeat split; try reflexivity. by exists "carol".
    + repeat constructor.
      * exists (Sample.sign Sample.A1 challenge). split; [reflexivity|].
        repeat constructor.
      * exists (Sample.sign Sample.A2 challenge). split; [reflexivity|].
        repeat constructor.
    + reflexivity.
  - apply (proj2 (not_found_is_not_agent_unavailable Sample.no_forwarding "alice" Sample.s0)
             (AgentError msg_no_auth_sock)).
    + reflexivity.
    + by left.
  - apply (proj2 (not_found_is_not_agent_unavailable Sample.broken_agent "alice" Sample.s0)
             (AgentError (msg_agent_ssh "could not get keys from ssh-agent"))).
    + reflexivity.
    + right. by eexists.
Defined.

(** ** Opening and closing the agent connection *)

Lemma opened_app evs1 evs2 : opened (evs1 ++ evs2) = opened evs1 + opened evs2.
Proof. unfold opened. by rewrite filter_app, List.length_app. Qed.

Lemma closed_app evs1 evs2 : closed (evs1 ++ evs2) = closed evs1 + closed evs2.
Proof. unfold closed. by rewrite filter_app, List.length_app. Qed.

Lemma closed_not_close evs : Forall not_close evs -> closed evs = 0.
Proof.
  induction 1 as [|ev evs Hev _ IH]; [done|].
  unfold closed in *. by rewrite filter_cons_False.
Qed.

Lemma opened_probe evs : Forall is_probe evs -> opened evs = 0.
Proof.
  induction 1 as [|ev evs Hev _ IH]; [done|].
  unfold opened in *. rewrite filter_cons_False; [done|].
  intros ->. done.
Qed.

(** An early exit of [get_ods_key]: its events are the ones on display. *)
Ltac early_exit Hsame :=
  let H := fresh in
  rewrite ?trace_at_loop; simpl; unfold log_event; simpl;
  rewrite <- ?app_assoc; simpl;
  intros H; apply Hsame in H; [done|vm_compute; lia].

(** [get_ods_key] calls [Agent()] at most once and never [close()]. *)
Lemma get_ods_key_connection w username s :
  exists evs,
    snd (get_ods_key w username s) = {| trace := trace s ++ evs; heap := heap s |} /\
    closed evs = 0 /\ opened evs <= 1.
Proof.
  destruct (get_ods_key_frame w username s) as (evs & Hsnd & Hnc & _).
  exists evs. split; [done|]. split; [by apply closed_not_close|].
  revert Hsnd. rewrite get_ods_key_paths.
  assert (forall evs', {| trace := trace s ++ evs'; heap := heap s |}
                       = {| trace := trace s ++ evs; heap := heap s |} ->
                       opened evs' <= 1 -> opened evs <= 1) as Hsame.
  { intros evs' [= H%app_inv_head]. by subst. }
  destruct (ODS_init w) as [[]|]; [|early_exit Hsame].
  destruct (ods_get_user w username) as [[entry|]|]; [|early_exit Hsame|early_exit Hsame].
  destruct (ods_query_keys w username) as [lines|]; [|early_exit Hsame].
  destruct (ldap_pubkeys w lines) as [pubs|]; [|early_exit Hsame].
  destruct (Agent_init w) as [agent|[|]]; [|early_exit Hsame|early_exit Hsame].
  destruct (match_loop_emits w pubs (get_keys agent)) as (r & evs' & Hrun & Hprobe).
  rewrite Hrun, trace_at_loop. simpl.
  apply opened_probe in Hprobe.
  destruct r as [[key|]|e]; simpl; unfold log_event; simpl; rewrite <- ?app_assoc;
    intros H; apply Hsame in H; try done;
    rewrite ?opened_app, Hprobe; vm_compute; lia.
Qed.

(** C5, as the code has it.  No path of [sign_session] or of
    [acquire_session_key], returning or raising, calls [Agent.close()]; each
    calls [Agent()] at most once.  The connection is left to the agent
    object's owner, the runtime. *)
Theorem agent_connection_never_closed (w : World) (owner : string) (s : state) :
  (exists evs,
     trace (snd (acquire_session_key w owner s)) = trace s ++ evs /\
     closed evs = 0 /\ opened evs <= 1) /\
  (forall session_key, exists evs,
     trace (snd (sign_session w session_key owner s)) = trace s ++ evs /\
     closed evs = 0 /\ opened evs <= 1).
Proof.
  assert (forall session_key s0, exists evs,
             trace (snd (sign_session w session_key owner s0)) = trace s0 ++ evs /\
             closed evs = 0 /\ opened evs <= 1) as Hsign.
  { intros session_key s0. rewrite sign_session_paths.
    destruct (get_ods_key_connection w owner s0) as (evs & Hsnd & Hc & Ho).
    destruct (get_ods_key w owner s0) as [[[key|]|e] s1]; simpl in Hsnd; subst s1;
      [|by exists evs|by exists evs].
    exists (evs ++ [EvTime; EvSign key
              (PyStr.str (clock_ms w (now {| trace := trace s0 ++ evs; heap := heap s0 |})))]).
    rewrite closed_app, opened_app, Hc.
    split; [|split; [done|by rewrite Nat.add_0_r]].
    simpl. destruct (sign_ssh_data w key _); simpl; by rewrite <- !app_assoc. }
  split; [|by intros session_key].
  rewrite acquire_session_key_paths. simpl.
  destruct (Hsign (length (heap s)) (after_new owner s)) as (evs & Htr & Hc & Ho).
  destruct (sign_session w (length (heap s)) owner (after_new owner s)) as [[[]|e] s1];
    simpl in *.
  - by exists evs.
  - exists (evs ++ [EvWarning (msg_cannot_use e); EvWarning msg_attempting; EvTime]).
    rewrite Htr, closed_app, opened_app, Hc, <- !app_assoc.
    split; [done|]. split; [done|]. by rewrite Nat.add_0_r.
Qed.

(** C5, as stated, fails.  In the office the agent is connected, alice's
    credential is signed, and the run of [acquire_session_key] ends with the
    connection opened and not closed; so does the run of [sign_session] that
    ends by raising because the agent refuses to sign the nonce. *)
Lemma agent_connection_left_open :
  (exists ks, Agent_init Sample.office = Ok {| conn := Some Sample.sock; keys := ks |}) /\
  ~ all_closed (trace (snd (acquire_session_key Sample.office "alice" Sample.s0))) /\
  (exists e, fst (sign_session Sample.refusing_agent 0 "alice" (after_new "alice" Sample.s0))
             = Raise e) /\
  ~ all_closed (trace (snd (sign_session Sample.refusing_agent 0 "alice"
                              (after_new "alice" Sample.s0)))).
Proof.
  split; [by eexists|]. split; [by vm_compute|]. split; [by eexists|by vm_compute].
Qed.

(** ** Lines of other key types *)

Lemma ldap_pubkeys_filter w lines :
  ldap_pubkeys w (filter (fun l => is_rsa_record l = true) lines) = ldap_pubkeys w lines.
Proof.
  induction lines as [|key rest IH]; [done|].
  destruct (is_rsa_record key) eqn:Hrsa.
  - rewrite filter_cons_True by done.
    by rewrite (ldap_pubkeys_cons w key (filter _ rest)),
         (ldap_pubkeys_cons w key rest), IH.
  - rewrite filter_cons_False by (by rewrite Hrsa).
    by rewrite ldap_pubkeys_skip.
Qed.

(** C7. Only lines of the supported type give candidates.  A line that does
    not start with [ssh-rsa] contributes nothing; the directory could drop
    all such lines without any change to what [get_ods_key] does, returns or
    raises; and a returned key was accepted by a candidate read from a line
    that starts with [ssh-rsa]. *)
Theorem only_rsa_records_are_candidates (w : World) (username : string) (s : state) :
  (forall line, is_rsa_record line = false -> ldap_pubkeys w [line] = Return []) /\
  get_ods_key (only_rsa_records w) username s = get_ods_key w username s /\
  (forall lines key,
     ods_query_keys w username = Ok lines ->
     fst (get_ods_key w username s) = Return (Some key) ->
     exists line p sig,
       line ∈ lines /\ is_rsa_record line = true /\
       ldap_pubkeys w [line] = Return [p] /\
       sign_ssh_data w key challenge = Ok sig /\
       verify_ssh_sig w p challenge (Message_new sig) = Ok true).
Proof.
  split; [|split].
  - intros line Hline. by rewrite ldap_pubkeys_line, Hline.
  - rewrite !get_ods_key_paths. simpl.
    destruct (ODS_init w) as [[]|]; [|done].
    destruct (ods_get_user w username) as [[entry|]|]; [|done|done].
    destruct (ods_query_keys w username) as [lines|]; [|done].
    change (ldap_pubkeys (only_rsa_records w)) with (ldap_pubkeys w).
    rewrite ldap_pubkeys_filter.
    destruct (ldap_pubkeys w lines) as [pubs|]; [|done].
    destruct (Agent_init w) as [agent|[|]]; [|done|done].
    by change (match_loop (only_rsa_records w)) with (match_loop w).
  - intros lines key Hlines Hret.
    apply get_ods_key_Return_inv in Hret
      as (key' & lines' & pubs & agent & [= <-] & Hreach & Hloop).
    destruct Hreach as (_ & _ & Hlines' & Hpubs & _).
    rewrite Hlines in Hlines'. injection Hlines' as <-.
    apply match_loop_Some_inv in Hloop
      as (earlier & later & sig & p & _ & _ & Hsig & Hp & Hok).
    destruct (ldap_pubkeys_origin w lines pubs p Hpubs Hp) as (line & Hin & Hrsa & Hline).
    by exists line, p, sig.
Qed.

Lemma only_rsa_records_are_candidates_witness :
  exists line p sig,
    line ∈ Sample.alice_lines /\ is_rsa_record line = true /\
    ldap_pubkeys Sample.office [line] = Return [p] /\
    sign_ssh_data Sample.office Sample.A2 challenge = Ok sig /\
    verify_ssh_sig Sample.office p challenge (Message_new sig) = Ok true.
Proof.
  apply (proj2 (proj2 (only_rsa_records_are_candidates Sample.office "alice" Sample.s0))).
  - reflexivity.
  - reflexivity.
Defined.

(** ** Two runs of the match step *)

Lemma verify_loop_ext w1 w2 sm pubs s :
  (forall p m, verify_ssh_sig w1 p challenge m = verify_ssh_sig w2 p challenge m) ->
  verify_loop w1 challenge sm pubs s = verify_loop w2 challenge sm pubs s.
Proof.
  intros Hv. revert sm s. induction pubs as [|p rest IH]; intros sm s; [done|].
  rewrite !verify_loop_step, Hv.
  by destruct (verify_ssh_sig w2 p challenge (rewind sm)) as [[]|].
Qed.

Lemma match_loop_ext w1 w2 pubs agent_keys s :
  (forall k, sign_ssh_data w1 k challenge = sign_ssh_data w2 k challenge) ->
  (forall p m, verify_ssh_sig w1 p challenge m = verify_ssh_sig w2 p challenge m) ->
  match_loop w1 pubs agent_keys s = match_loop w2 pubs agent_keys s.
Proof.
  intros Hs Hv. revert s. induction agent_keys as [|k rest IH]; intros s; [done|].
  rewrite !match_loop_step, Hs.
  destruct (sign_ssh_data w2 k challenge) as [sig|]; [|done].
  rewrite (verify_loop_ext w1 w2) by done.
  by destruct (verify_loop w2 challenge (Message_new sig) pubs _) as [[[]|] ?].
Qed.

(** C8. Two runs of [get_ods_key] for the same user, in worlds that agree on
    the directory's and the agent's answers and on the results of signing and
    checking the challenge, select the same key, or both select none, from
    whatever states they start and whatever the clock and the environment. *)
Theorem matching_is_deterministic (w1 w2 : World) (username : string) (s1 s2 : state) :
  same_match_inputs w1 w2 username ->
  selected_key (fst (get_ods_key w1 username s1)) =
  selected_key (fst (get_ods_key w2 username s2)).
Proof.
  intros [Hods Huser Hlines Hpubs Hagent Hsign Hverify].
  destruct (get_ods_key_frame w1 username s1) as (? & _ & _ & ->).
  destruct (get_ods_key_frame w2 username s2) as (? & _ & _ & ->).
  rewrite !get_ods_key_paths, Hods, Huser, Hlines, Hagent.
  destruct (ODS_init w2) as [[]|]; [|done].
  destruct (ods_get_user w2 username) as [[entry|]|]; [|done|done].
  destruct (ods_query_keys w2 username) as [lines|]; [|done].
  rewrite Hpubs.
  destruct (ldap_pubkeys w2 lines) as [pubs|]; [|done].
  destruct (Agent_init w2) as [agent|[|]]; [|done|done].
  rewrite (match_loop_ext w1 w2) by done.
  by destruct (match_loop w2 pubs (get_keys agent) _) as [[[key|]|e] s3].
Qed.

Lemma matching_is_deterministic_witness :
  selected_key (fst (get_ods_key Sample.office "alice" Sample.s0)) =
  selected_key (fst (get_ods_key Sample.office_later "alice" Sample.s1)) /\
  selected_key (fst (get_ods_key Sample.office "alice" Sample.s0)) = Some Sample.A2.
Proof.
  split; [|reflexivity].
  apply (matching_is_deterministic Sample.office Sample.office_later "alice").
  split; reflexivity.
Defined.

(** * Further properties of the session-key helper *)

(** ** What [get_ods_key] and [sign_session] add to the trace *)

Lemma get_ods_key_emits_match w username : emits is_match_event (get_ods_key w username).
Proof.
  unfold get_ods_key.
  apply emits_bind; [by apply emits_call|]. intros _.
  apply emits_bind; [by apply emits_call|]. intros [entry|]; [|auto with emits].
  apply emits_bind; [by apply emits_call|]. intros lines.
  apply emits_bind.
  { eexists _, []. split; [|constructor].
    intros s. by rewrite parse_ldap_pubkeys_run, app_nil_r, state_eta. }
  intros pubs. apply emits_bind.
  { apply emits_try_SSH; [by apply emits_call|auto with emits]. }
  intros agent. apply emits_bind.
  { eapply emits_weaken; [|apply match_loop_emits]. by intros []. }
  intros [key|]; [auto with emits|].
  apply emits_bind; [by apply emits_getenv|].
  intros [sock|]; auto with emits.
Qed.

Lemma get_ods_key_events w username s :
  exists evs,
    snd (get_ods_key w username s) = {| trace := trace s ++ evs; heap := heap s |} /\
    Forall is_match_event evs.
Proof.
  destruct (get_ods_key_emits_match w username) as (r & evs & H & HP).
  exists evs. by rewrite H.
Qed.

(** [sign_session] logs no warning, whichever way it ends. *)
Lemma sign_session_events w session_key username s :
  exists evs,
    trace (snd (sign_session w session_key username s)) = trace s ++ evs /\
    Forall (fun ev => ~ is_warning ev) evs.
Proof.
  rewrite sign_session_paths.
  destruct (get_ods_key_events w username s) as (evs & Hsnd & Hev).
  assert (Forall (fun ev => ~ is_warning ev) evs) as Hnw.
  { eapply Forall_impl; [done|]. intros [] Hm Hw; simpl in *; done. }
  destruct (get_ods_key w username s) as [[[key|]|e] s1]; simpl in Hsnd; subst s1;
    [|by exists evs|by exists evs].
  eexists (evs ++ [EvTime; EvSign key _]). split.
  - simpl. destruct (sign_ssh_data w key _); simpl; by rewrite <- !app_assoc.
  - apply Forall_app. split; [done|]. repeat constructor; by intros [].
Qed.

Lemma trace_after_new owner s : trace (after_new owner s) = trace s.
Proof. done. Qed.

(** X1. [acquire_session_key] logs a warning exactly when it takes the
    fallback, that is when [sign_session] raised; a signed credential is
    delivered in silence. *)
Theorem warnings_iff_fallback (w : World) (owner : string) (s : state) :
  exists evs,
    trace (snd (acquire_session_key w owner s)) = trace s ++ evs /\
    ((exists ev, ev ∈ evs /\ is_warning ev) <->
     (exists e s1,
        sign_session w (length (heap s)) owner (after_new owner s) = (Raise e, s1))).
Proof.
  rewrite acquire_session_key_paths. simpl.
  destruct (sign_session_events w (length (heap s)) owner (after_new owner s))
    as (evs & Htr & Hnw).
  rewrite trace_after_new in Htr.
  destruct (sign_session w (length (heap s)) owner (after_new owner s))
    as [[[]|e] s1]; simpl in *.
  - exists evs. split; [done|]. split.
    + intros (ev & Hin & Hw). rewrite Forall_forall in Hnw. by apply Hnw in Hin.
    + by intros (e & s2 & ?).
  - exists (evs ++ [EvWarning (msg_cannot_use e); EvWarning msg_attempting; EvTime]).
    split; [by rewrite Htr, <- !app_assoc|]. split; [by eauto|].
    intros _. exists (EvWarning (msg_cannot_use e)). split; [|done].
    apply elem_of_app. right. apply list_elem_of_here.
Qed.

(** ** The store *)

Lemma alter_last {A} (f : A -> A) (l : list A) (x : A) :
  alter f (length l) (l ++ [x]) = l ++ [f x].
Proof.
  replace (length l) with (length l + 0) by lia. by rewrite alter_app_r.
Qed.

(** The store after [acquire_session_key]: the old objects and one new one. *)
Lemma acquire_session_key_heap w owner s :
  exists c,
    heap (snd (acquire_session_key w owner s)) = heap s ++ [c] /\
    fst (acquire_session_key w owner s) = Return (length (heap s)) /\
    user c = Some owner /\ is_Some (nonce c) /\ is_Some (nonceSig c).
Proof.
  rewrite acquire_session_key_paths. simpl.
  destruct (sign_session w (length (heap s)) owner (after_new owner s))
    as [[[]|e] s1] eqn:Hsign; simpl.
  - apply sign_session_Return_inv in Hsign as (key & s2 & sig & _ & _ & _ & ->).
    unfold after_new. simpl. rewrite !alter_last. eexists. split; [done|].
    simpl. eauto.
  - apply sign_session_Raise_inv in Hsign as (-> & _).
    unfold after_new. simpl. rewrite !alter_last. eexists. split; [done|].
    simpl. eauto.
Qed.

(** X2. [acquire_session_key] adds exactly one object to the store and
    leaves the others alone; the reference it returns is that of the new
    object, whose owner is the caller's and whose nonce and signature are
    both set, on the signed path and on the fallback path alike. *)
Theorem acquire_session_key_allocates (w : World) (owner : string) (s : state) :
  exists c,
    heap (snd (acquire_session_key w owner s)) = heap s ++ [c] /\
    fst (acquire_session_key w owner s) = Return (length (heap s)) /\
    user c = Some owner /\ is_Some (nonce c) /\ is_Some (nonceSig c).
Proof. apply acquire_session_key_heap. Qed.

(** X3. Two acquisitions in a row give two different credentials: the
    second reference is the next one, and the second call changes neither
    the first credential nor any object that was there before. *)
Theorem acquisitions_do_not_share (w1 w2 : World) (owner1 owner2 : string)
    (s s1 s2 : state) (r1 r2 : ref) :
  acquire_session_key w1 owner1 s = (Return r1, s1) ->
  acquire_session_key w2 owner2 s1 = (Return r2, s2) ->
  r2 = S r1 /\
  heap s2 !! r1 = heap s1 !! r1 /\
  (forall r, r < length (heap s) -> heap s2 !! r = heap s !! r).
Proof.
  intros H1 H2.
  destruct (acquire_session_key_heap w1 owner1 s) as (c1 & Hh1 & Hr1 & _).
  destruct (acquire_session_key_heap w2 owner2 s1) as (c2 & Hh2 & Hr2 & _).
  rewrite H1 in Hh1, Hr1. rewrite H2 in Hh2, Hr2. simpl in *.
  injection Hr1 as ->. injection Hr2 as ->.
  rewrite Hh2, Hh1. rewrite !length_app. simpl.
  split; [lia|]. split.
  - rewrite lookup_app_l; [done|]. rewrite length_app. simpl. lia.
  - intros r Hr. rewrite lookup_app_l by (rewrite length_app; simpl; lia).
    by rewrite lookup_app_l.
Qed.

Lemma acquisitions_do_not_share_witness :
  exists s1 s2,
    acquire_session_key Sample.office "alice" Sample.s1 = (Return 1, s1) /\
    acquire_session_key Sample.no_forwarding "bob" s1 = (Return 2, s2) /\
    heap s2 !! 1 = heap s1 !! 1 /\
    heap s2 !! 0 = heap Sample.s1 !! 0.
Proof.
  eexists _, _. split; [reflexivity|]. split; [reflexivity|].
  destruct (acquisitions_do_not_share Sample.office Sample.no_forwarding
              "alice" "bob" Sample.s1 _ _ 1 2 eq_refl eq_refl) as (_ & H1 & H0).
  split; [exact H1|]. apply H0. simpl. lia.
Defined.

(** ** The nonce and the clock *)

(** The nonce of the credential is a reading of the clock made during the
    call, at an instant the trace marks with [EvTime]. *)
Lemma acquire_session_key_reading w owner s :
  exists i c,
    length (trace s) <= i < length (trace (snd (acquire_session_key w owner s))) /\
    trace (snd (acquire_session_key w owner s)) !! i = Some EvTime /\
    heap (snd (acquire_session_key w owner s)) !! length (heap s) = Some c /\
    nonce c = Some (clock_ms w i).
Proof.
  destruct (sign_session w (length (heap s)) owner (after_new owner s))
    as [[[]|e] s1] eqn:Hsign.
  - apply acquire_session_key_signed in Hsign
      as (-> & key & s2 & sig & Hkey & _ & Htr & Hheap).
    destruct (get_ods_key_frame w owner (after_new owner s)) as (evs & Hsnd & _ & _).
    rewrite Hkey in Hsnd. simpl in Hsnd, Htr, Hheap |- *.
    eexists (now s2), _. split; [|split; [|split; [exact Hheap|done]]].
    + rewrite Htr, length_app. unfold now. subst s2. simpl.
      rewrite length_app. lia.
    + rewrite Htr. unfold now. by rewrite list_lookup_middle.
  - pose proof Hsign as Hraise.
    apply acquire_session_key_fallback in Hsign as (s' & -> & Htr & Hheap).
    apply sign_session_Raise_inv in Hraise as (_ & evs & Htr1 & _).
    simpl in *. eexists (length (trace s1) + 2), _.
    split; [|split; [|split; [exact Hheap|done]]].
    + rewrite Htr, Htr1, !length_app. simpl. lia.
    + rewrite Htr.
      change [EvWarning (msg_cannot_use e); EvWarning msg_attempting; EvTime]
        with ([EvWarning (msg_cannot_use e); EvWarning msg_attempting] ++ [EvTime]).
      rewrite app_assoc. apply list_lookup_middle. rewrite length_app. simpl. lia.
Qed.

(** X4. The nonce of a credential is the clock as read during the call that
    made it: at an instant after the call began and before it ended, marked
    in the trace by the clock reading. *)
Theorem nonce_is_read_during_call (w : World) (owner : string) (s : state) :
  exists i c,
    length (trace s) <= i < length (trace (snd (acquire_session_key w owner s))) /\
    trace (snd (acquire_session_key w owner s)) !! i = Some EvTime /\
    heap (snd (acquire_session_key w owner s)) !! length (heap s) = Some c /\
    nonce c = Some (clock_ms w i).
Proof. apply acquire_session_key_reading. Qed.

(** X5. Under a clock that never runs backwards, the nonces of two
    acquisitions made one after the other are in order: the second is not
    smaller than the first. *)
Theorem nonces_follow_the_clock (w : World) (owner1 owner2 : string)
    (s s1 s2 : state) (r1 r2 : ref) (c1 c2 : SessionKey) (n1 n2 : Z) :
  monotone_clock w ->
  acquire_session_key w owner1 s = (Return r1, s1) ->
  acquire_session_key w owner2 s1 = (Return r2, s2) ->
  heap s1 !! r1 = Some c1 -> nonce c1 = Some n1 ->
  heap s2 !! r2 = Some c2 -> nonce c2 = Some n2 ->
  (n1 <= n2)%Z.
Proof.
  intros Hmono H1 H2 Hc1 Hn1 Hc2 Hn2.
  destruct (acquire_session_key_reading w owner1 s) as (i1 & c1' & Hi1 & _ & Hh1 & Hr1).
  destruct (acquire_session_key_reading w owner2 s1) as (i2 & c2' & Hi2 & _ & Hh2 & Hr2).
  destruct (acquire_session_key_heap w owner1 s) as (? & _ & Hret1 & _).
  destruct (acquire_session_key_heap w owner2 s1) as (? & _ & Hret2 & _).
  rewrite H1 in Hi1, Hh1, Hret1. rewrite H2 in Hi2, Hh2, Hret2. simpl in *.
  injection Hret1 as ->. injection Hret2 as ->.
  rewrite Hc1 in Hh1. injection Hh1 as <-.
  rewrite Hc2 in Hh2. injection Hh2 as <-.
  rewrite Hn1 in Hr1. injection Hr1 as ->.
  rewrite Hn2 in Hr2. injection Hr2 as ->.
  apply Hmono. lia.
Qed.

Lemma nonces_follow_the_clock_witness :
  (1110 <= 1170)%Z.
Proof.
  apply (nonces_follow_the_clock Sample.office "alice" "bob" Sample.s1
           (snd (acquire_session_key Sample.office "alice" Sample.s1))
           (snd (acquire_session_key Sample.office "bob"
                   (snd (acquire_session_key Sample.office "alice" Sample.s1))))
           1 2
           {| user := Some "alice"; nonce := Some 1110%Z; nonceSig := Some "K2:1110" |}
           (unauthenticated_credential "bob" 1170) 1110 1170).
  - intros i j Hij. simpl. lia.
  - reflexivity.
  - reflexivity.
  - reflexivity.
  - reflexivity.
  - reflexivity.
  - reflexivity.
Defined.

(** ** The directory first, the agent after *)

(** An exit of [get_ods_key] before [Agent()]: the events are on display,
    none of them reaches the agent, and the directory has not answered. *)
Ltac before_agent :=
  let ev := fresh "ev" in
  let Hin := fresh "Hin" in
  let Hc := fresh "Hc" in
  eexists; split;
  [simpl; rewrite <- ?app_assoc; simpl; reflexivity|];
  split;
  [intros (ev & Hin & Hc);
   repeat (apply elem_of_cons in Hin as [->|Hin]; [done|]);
   by apply elem_of_nil in Hin
  |intros (? & ? & ? & (? & ?) & ? & ?); congruence].

(** X6. [get_ods_key] reaches for the ssh-agent only once the directory has
    answered: some call of its run opens the agent, signs or checks exactly
    when the user is known and every line of the user was read without
    error.  For an unknown user, a failing directory or an unreadable line,
    the agent is not opened and no key is asked to sign. *)
Theorem agent_contacted_iff_directory_answers (w : World) (username : string) (s : state) :
  exists evs,
    trace (snd (get_ods_key w username s)) = trace s ++ evs /\
    ((exists ev, ev ∈ evs /\ contacts_agent ev) <->
     (exists lines pubs, directory_answers w username lines pubs)).
Proof.
  rewrite get_ods_key_paths. unfold directory_answers.
  destruct (ODS_init w) as [[]|] eqn:Hods; [|before_agent].
  destruct (ods_get_user w username) as [[entry|]|] eqn:Huser; [|before_agent|before_agent].
  destruct (ods_query_keys w username) as [lines|] eqn:Hlines; [|before_agent].
  destruct (ldap_pubkeys w lines) as [pubs|] eqn:Hpubs; [|before_agent].
  assert (exists lines0 pubs0,
             Ok tt = Ok tt /\ (exists entry0, Ok (Some entry) = Ok (Some entry0)) /\
             Ok lines = Ok lines0 /\ ldap_pubkeys w lines0 = Return pubs0) as Hyes.
  { exists lines, pubs. repeat split; eauto. }
  assert (forall evs, exists ev,
             ev ∈ [EvODS; EvGetUser username; EvQueryKeys username; EvAgentOpen] ++ evs /\
             contacts_agent ev) as Hopen.
  { intros evs. exists EvAgentOpen. split; [|done].
    apply elem_of_app. left. do 3 apply list_elem_of_further. apply list_elem_of_here. }
  destruct (Agent_init w) as [agent|[|]].
  - destruct (match_loop_emits w pubs (get_keys agent)) as (r & evs & Hrun & _).
    rewrite Hrun, trace_at_loop.
    destruct r as [[key|]|e]; simpl.
    + exists ([EvODS; EvGetUser username; EvQueryKeys username; EvAgentOpen] ++ evs).
      split; [by rewrite <- !app_assoc|]. split; [done|]. intros _. apply Hopen.
    + exists ([EvODS; EvGetUser username; EvQueryKeys username; EvAgentOpen]
               ++ evs ++ [EvGetenv "SSH_AUTH_SOCK"]).
      split; [by rewrite <- !app_assoc|]. split; [done|]. intros _. apply Hopen.
    + exists ([EvODS; EvGetUser username; EvQueryKeys username; EvAgentOpen] ++ evs).
      split; [by rewrite <- !app_assoc|]. split; [done|]. intros _. apply Hopen.
  - rewrite trace_at_loop. simpl.
    exists ([EvODS; EvGetUser username; EvQueryKeys username; EvAgentOpen] ++ []).
    split; [done|]. split; [done|]. intros _. apply Hopen.
  - rewrite trace_at_loop. simpl.
    exists ([EvODS; EvGetUser username; EvQueryKeys username; EvAgentOpen] ++ []).
    split; [done|]. split; [done|]. intros _. apply Hopen.
Qed.

(** ** Lines that cannot be read *)

Lemma ldap_pubkeys_malformed w lines line :
  line ∈ lines -> is_rsa_record line = true -> PyStr.split line !! 1 = None ->
  exists e, ldap_pubkeys w lines = Raise (Lib e).
Proof.
  intros Hin Hrsa Hsplit.
  induction lines as [|key rest IH]; [by apply elem_of_nil in Hin|].
  rewrite ldap_pubkeys_cons.
  pose proof (ldap_pubkeys_lib_only w [key]) as Hkey.
  destruct (ldap_pubkeys w [key]) as [l|[| | |e]] eqn:Hline; try done; [|by eauto].
  apply elem_of_cons in Hin as [<-|Hin].
  - by rewrite ldap_pubkeys_line, Hrsa, Hsplit in Hline.
  - destruct (IH Hin) as (e & ->). by eauto.
Qed.

(** X7. One line of the supported type without a second field is enough to
    stop the match: [get_ods_key] raises a collaborator's exception right
    after the directory calls, whatever the other lines are and whatever
    keys the agent holds, and the agent is not contacted. *)
Theorem malformed_rsa_line_stops_the_match (w : World) (username entry : string)
    (lines : list string) (line : string) (s : state) :
  ODS_init w = Ok tt ->
  ods_get_user w username = Ok (Some entry) ->
  ods_query_keys w username = Ok lines ->
  line ∈ lines -> is_rsa_record line = true -> PyStr.split line !! 1 = None ->
  exists e,
    get_ods_key w username s =
      (Raise (Lib e),
       {| trace := trace s ++ [EvODS; EvGetUser username; EvQueryKeys username];
          heap := heap s |}).
Proof.
  intros Hods Huser Hlines Hin Hrsa Hsplit.
  destruct (ldap_pubkeys_malformed w lines line Hin Hrsa Hsplit) as (e & Hpubs).
  exists e. rewrite get_ods_key_paths, Hods, Huser, Hlines, Hpubs.
  unfold log_event. simpl. by rewrite <- !app_assoc.
Qed.

Lemma malformed_rsa_line_stops_the_match_witness :
  exists e,
    get_ods_key Sample.cluttered "alice" Sample.s0 =
      (Raise (Lib e),
       {| trace := [EvODS; EvGetUser "alice"; EvQueryKeys "alice"]; heap := [] |}).
Proof.
  apply (malformed_rsa_line_stops_the_match Sample.cluttered "alice" "alice"
           (Sample.alice_lines ++ ["ssh-rsa"]) "ssh-rsa" Sample.s0);
    try reflexivity.
  apply elem_of_app. right. apply list_elem_of_here.
Defined.

(** ** Keys that cannot sign, keys that match nothing *)

Lemma match_loop_sign_fails w pubs earlier key later e :
  Forall (rejected w pubs) earlier ->
  sign_ssh_data w key challenge = Fails e ->
  runs_as (match_loop w pubs (earlier ++ key :: later)) (Raise (Lib e))
          (rejected_events w pubs earlier ++ [EvSign key challenge]).
Proof.
  intros Hearlier Hsig.
  induction Hearlier as [|k rest (sg & Hsg & Hrej) _ IH]; intros s.
  - simpl app. by rewrite match_loop_step, Hsig.
  - simpl app. rewrite match_loop_step, Hsg, (verify_loop_rejects _ _ _ Hrej), IH.
    unfold rejected_events, log_event, probe_events, challenge_sig. simpl.
    rewrite Hsg. f_equal. f_equal. by rewrite <- !app_assoc.
Qed.

(** X8. An agent key that cannot sign the challenge ends the match: the
    exception of the signing is raised as it is, and the keys after it are
    not tried, not even one that a candidate would accept. *)
Theorem signing_failure_ends_the_match (w : World) (username : string)
    (lines : list string) (pubs : list PKey) (agent : Agent)
    (earlier later : list AgentKey) (key : AgentKey) (e : lib_exn) (s : state) :
  reachable w username lines pubs agent ->
  get_keys agent = earlier ++ key :: later ->
  Forall (rejected w pubs) earlier ->
  sign_ssh_data w key challenge = Fails e ->
  get_ods_key w username s =
    (Raise (Lib e),
     {| trace := trace s
                 ++ [EvODS; EvGetUser username; EvQueryKeys username; EvAgentOpen]
                 ++ rejected_events w pubs earlier ++ [EvSign key challenge];
        heap := heap s |}).
Proof.
  intros Hreach Hkeys Hearlier Hsig.
  rewrite (get_ods_key_reachable _ _ _ _ _ _ Hreach), Hkeys.
  rewrite (match_loop_sign_fails w pubs earlier key later e) by done.
  rewrite trace_at_loop. simpl. by rewrite <- !app_assoc.
Qed.

Lemma signing_failure_ends_the_match_witness :
  get_ods_key Sample.locked_first_key "alice" Sample.s0 =
    (Raise (Lib (SSHException "key cannot be used for signing")),
     {| trace := [EvODS; EvGetUser "alice"; EvQueryKeys "alice"; EvAgentOpen;
                  EvSign Sample.A1 challenge];
        heap := [] |}).
Proof.
  apply (signing_failure_ends_the_match Sample.locked_first_key "alice"
           Sample.alice_lines [Sample.K1; Sample.K2]
           {| conn := Some Sample.sock; keys := [Sample.A1; Sample.A2] |}
           [] [Sample.A2] Sample.A1 _ Sample.s0).
  - repeat split; try reflexivity. by exists "alice".
  - reflexivity.
  - constructor.
  - reflexivity.
Defined.

Lemma length_rejected_events w pubs agent_keys :
  length (rejected_events w pubs agent_keys) = length agent_keys * S (length pubs).
Proof.
  induction agent_keys as [|k rest IH]; [done|].
  unfold rejected_events in *. simpl. rewrite length_app, IH.
  unfold verify_events. by rewrite length_map.
Qed.

(** X9. When no agent key is accepted the search was exhaustive: before
    [get_ods_key] gives up, every agent key has signed the challenge once and
    every such signature has been checked under every candidate, key by key
    in order; only then is [SSH_AUTH_SOCK] read, to choose the message of the
    [AgentError].  With no candidate at all each key still signs once. *)
Theorem no_match_is_exhaustive (w : World) (username : string)
    (lines : list string) (pubs : list PKey) (agent : Agent) (s : state) :
  reachable w username lines pubs agent ->
  Forall (rejected w pubs) (get_keys agent) ->
  get_ods_key w username s =
    (Raise (AgentError match getenv w "SSH_AUTH_SOCK" with
                       | None => msg_no_auth_sock
                       | Some _ => msg_no_signable_key
                       end),
     {| trace := trace s
                 ++ [EvODS; EvGetUser username; EvQueryKeys username; EvAgentOpen]
                 ++ rejected_events w pubs (get_keys agent)
                 ++ [EvGetenv "SSH_AUTH_SOCK"];
        heap := heap s |}) /\
  length (rejected_events w pubs (get_keys agent))
    = length (get_keys agent) * S (length pubs).
Proof.
  intros Hreach Hrej. split; [|apply length_rejected_events].
  rewrite (get_ods_key_reachable _ _ _ _ _ _ Hreach).
  rewrite (match_loop_rejects _ _ _ Hrej), trace_at_loop.
  unfold log_event. simpl. by rewrite <- !app_assoc.
Qed.

Lemma no_match_is_exhaustive_witness :
  get_ods_key Sample.office "dave" Sample.s0 =
    (Raise (AgentError msg_no_signable_key),
     {| trace := [EvODS; EvGetUser "dave"; EvQueryKeys "dave"; EvAgentOpen;
                  EvSign Sample.A1 challenge; EvSign Sample.A2 challenge;
                  EvGetenv "SSH_AUTH_SOCK"];
        heap := [] |}).
Proof.
  refine (proj1 (no_match_is_exhaustive Sample.office "dave" [] []
                   {| conn := Some Sample.sock; keys := [Sample.A1; Sample.A2] |}
                   Sample.s0 _ _)).
  - repeat split; try reflexivity. by exists "dave".
  - apply Forall_cons. split; [|apply Forall_cons; split; [|constructor]].
    + exists (Sample.sign Sample.A1 challenge). split; [reflexivity|constructor].
    + exists (Sample.sign Sample.A2 challenge). split; [reflexivity|constructor].
Defined.

(** X10. A key returned by [get_ods_key] is sound and first: it is one of the
    agent's keys, it signed the challenge, some candidate read from the
    directory accepted that signature, and every agent key before it was
    rejected by all candidates. *)
Theorem returned_key_is_first_accepted (w : World) (username : string)
    (s : state) (key : AgentKey) :
  fst (get_ods_key w username s) = Return (Some key) ->
  exists lines pubs agent earlier later sig p,
    reachable w username lines pubs agent /\
    get_keys agent = earlier ++ key :: later /\
    Forall (rejected w pubs) earlier /\
    sign_ssh_data w key challenge = Ok sig /\
    p ∈ pubs /\
    verify_ssh_sig w p challenge (Message_new sig) = Ok true.
Proof.
  intros Hret.
  apply get_ods_key_Return_inv in Hret
    as (key' & lines & pubs & agent & [= <-] & Hreach & Hloop).
  apply match_loop_Some_inv in Hloop
    as (earlier & later & sig & p & Hkeys & Hearlier & Hsig & Hp & Hok).
  by exists lines, pubs, agent, earlier, later, sig, p.
Qed.

Lemma returned_key_is_first_accepted_witness :
  exists lines pubs agent earlier later sig p,
    reachable Sample.office "alice" lines pubs agent /\
    get_keys agent = earlier ++ Sample.A2 :: later /\
    Forall (rejected Sample.office pubs) earlier /\
    sign_ssh_data Sample.office Sample.A2 challenge = Ok sig /\
    p ∈ pubs /\
    verify_ssh_sig Sample.office p challenge (Message_new sig) = Ok true.
Proof.
  apply (returned_key_is_first_accepted Sample.office "alice" Sample.s0 Sample.A2).
  reflexivity.
Defined.

(** ** The messages that get signed *)

Lemma string_of_uint_digits d :
  all_chars digit_or_minus (NilEmpty.string_of_uint d) = true.
Proof. induction d; simpl; auto. Qed.

Lemma str_chars n : all_chars digit_or_minus (PyStr.str n) = true.
Proof.
  unfold PyStr.str, NilZero.string_of_int, NilZero.string_of_uint.
  destruct (Z.to_int n) as [d|d]; destruct d; simpl; auto using string_of_uint_digits.
Qed.

Lemma str_nonempty n : PyStr.str n <> EmptyString.
Proof.
  unfold PyStr.str, NilZero.string_of_int, NilZero.string_of_uint.
  destruct (Z.to_int n) as [d|d]; destruct d; simpl; done.
Qed.



(** * Properties of the command-line client *)

Module MesosClientProofs.
Import MesosClient.

(** ** Splitting and joining on a separator *)

Lemma split_on_nonempty sep s : split_on sep s <> [].
Proof.
  destruct s as [|c rest]; simpl; [done|].
  destruct (Ascii.eqb c sep); [done|]. by destruct (split_on sep rest).
Qed.

Lemma split_on_no_sep sep s : no_sep sep s = true -> split_on sep s = [s].
Proof.
  induction s as [|c rest IH]; simpl; [done|].
  intros [Hc Hrest]%andb_prop. rewrite IH by done.
  by destruct (Ascii.eqb c sep).
Qed.

Lemma split_on_app sep a b :
  no_sep sep a = true ->
  split_on sep (a ++ String sep b) = a :: split_on sep b.
Proof.
  induction a as [|c rest IH]; simpl.
  - intros _. by rewrite Ascii.eqb_refl.
  - intros [Hc Hrest]%andb_prop. rewrite IH by done.
    by destruct (Ascii.eqb c sep).
Qed.

(** Joining fields that are free of the separator and splitting again gives
    the fields back. *)
Lemma split_on_join sep fields :
  fields <> [] ->
  Forall (fun f => no_sep sep f = true) fields ->
  split_on sep (join (String sep EmptyString) fields) = fields.
Proof.
  intros Hne Hall. induction Hall as [|f rest Hf Hrest IH]; [done|].
  destruct rest as [|g rest'].
  - simpl. by apply split_on_no_sep.
  - change (join (String sep EmptyString) (f :: g :: rest'))
      with (f ++ String sep (join (String sep EmptyString) (g :: rest')))%string.
    rewrite split_on_app by done. by rewrite IH.
Qed.

Lemma str_no_comma n : no_sep comma (PyStr.str n) = true.
Proof.
  pose proof (str_chars n) as H. unfold no_sep.
  induction (PyStr.str n) as [|c rest IH]; simpl in *; [done|].
  apply andb_prop in H as [Hc Hrest]. rewrite IH by done.
  rewrite andb_true_r. destruct (Ascii.eqb_spec c comma) as [->|]; [done|done].
Qed.

(** A trailing separator leaves an empty last field. *)
Lemma split_on_trailing sep s :
  exists fields,
    split_on sep (s ++ String sep EmptyString) = fields ++ [EmptyString] /\
    fields <> [].
Proof.
  induction s as [|c rest (fields & IH & Hne)]; simpl.
  - rewrite Ascii.eqb_refl. by exists [EmptyString].
  - rewrite IH. destruct (Ascii.eqb c sep).
    + by exists (EmptyString :: fields).
    + destruct fields as [|f fs]; [done|]. by exists (String c f :: fs).
Qed.

(** ** [_getshards] *)

Lemma join_nonempty sep f rest : f <> EmptyString -> join sep (f :: rest) <> EmptyString.
Proof.
  intros Hf. destruct f as [|c f']; [done|]. by destruct rest.
Qed.

Lemma map_int_str {F} (env : Env F) ids :
  (forall n, py_int env (PyStr.str n) = Some n) ->
  map_int env (map PyStr.str ids) = Some ids.
Proof.
  intros Hint. induction ids as [|n rest IH]; [done|].
  simpl. by rewrite Hint, IH.
Qed.

Lemma map_int_bad_field {F} (env : Env F) fields field :
  field ∈ fields -> py_int env field = None -> map_int env fields = None.
Proof.
  intros Hin Hbad. induction fields as [|f rest IH]; [by apply elem_of_nil in Hin|].
  simpl. apply elem_of_cons in Hin as [<-|Hin]; [by rewrite Hbad|].
  rewrite (IH Hin). by destruct (py_int env f).
Qed.

(** X12. [_getshards] reads back what [str] and [','.join] wrote: for a
    list of shard ids, the option value made of their decimal forms joined by
    commas is parsed to that very list, in order, with no log line and no
    exit; the empty list, written as the empty string, reads as "no shards
    given" ([None]).  It holds for any [int] that reads the decimal forms. *)
Theorem getshards_round_trip {F} (env : Env F) (options : Options) (ids : list Z)
    (t : list (cli_event F)) :
  (forall n, py_int env (PyStr.str n) = Some n) ->
  shards options = Some (join (String comma EmptyString) (map PyStr.str ids)) ->
  _getshards env options t =
    (Done match ids with
          | [] => None
          | _ => Some ids
          end, t).
Proof.
  intros Hint Hshards. unfold _getshards. rewrite Hshards.
  destruct ids as [|n rest]; [done|].
  pose proof (join_nonempty (String comma EmptyString) (PyStr.str n)
                (map PyStr.str rest) (str_nonempty n)) as Hne.
  change (map PyStr.str (n :: rest)) with (PyStr.str n :: map PyStr.str rest) in *.
  destruct (join (String comma EmptyString) (PyStr.str n :: map PyStr.str rest))
    as [|c js] eqn:Hj; [done|].
  rewrite <- Hj.
  change (PyStr.str n :: map PyStr.str rest) with (map PyStr.str (n :: rest)).
  rewrite split_on_join.
  - by rewrite map_int_str.
  - done.
  - apply Forall_forall. intros f (m & -> & _)%list_elem_of_fmap.
    apply str_no_comma.
Qed.

Lemma getshards_round_trip_witness :
  _getshards sample_env (sample_options (Some "3,0,12")) [] = (Done (Some [3; 0; 12]%Z), []).
Proof.
  apply (getshards_round_trip sample_env (sample_options (Some "3,0,12")) [3; 0; 12]%Z []).
  - intros n. unfold sample_env, sample_int. simpl.
    by rewrite str_decimal, DecimalZ.of_to.
  - reflexivity.
Defined.

(** X13. One field that [int] rejects spoils the whole list: [_getshards]
    logs the option value as invalid and exits with status 1, returning no
    partial list.  In particular a trailing comma is fatal as soon as [int]
    rejects the empty string. *)
Theorem getshards_rejects_bad_field {F} (env : Env F) (options : Options)
    (sh field : string) (t : list (cli_event F)) :
  shards options = Some sh ->
  sh <> EmptyString ->
  py_int env field = None ->
  field ∈ split_on comma sh \/
    (field = EmptyString /\ exists s, sh = (s ++ String comma EmptyString)%string) ->
  _getshards env options t =
    (Failed (SystemExit 1), t ++ [LogFatal ("Invalid shards list: " ++ sh)%string]).
Proof.
  intros Hshards Hne Hbad Hin. unfold _getshards. rewrite Hshards.
  assert (field ∈ split_on comma sh) as Hfield.
  { destruct Hin as [|(-> & s & ->)]; [done|].
    destruct (split_on_trailing comma s) as (fields & -> & _).
    apply elem_of_app. right. apply list_elem_of_here. }
  destruct sh as [|c sh']; [done|].
  by rewrite (map_int_bad_field env _ field Hfield Hbad).
Qed.

Lemma getshards_rejects_bad_field_witness :
  _getshards sample_env (sample_options (Some "1,2,")) [] =
    (Failed (SystemExit 1), [LogFatal "Invalid shards list: 1,2,"]).
Proof.
  apply (getshards_rejects_bad_field sample_env (sample_options (Some "1,2,"))
           "1,2," EmptyString []).
  - reflexivity.
  - discriminate.
  - reflexivity.
  - right. split; [reflexivity|]. by exists "1,2".
Defined.

(** ** [do_set_quota] *)

(** X14. A quota that cannot be read is never sent.  When [float] rejects
    the cpu count or [int] rejects the ram or the disk size, [do_set_quota]
    logs "Invalid value", still builds the scheduler client, and then fails
    on the first variable left unassigned: it raises [UnboundLocalError]
    (or the client's own exception if building it failed); it makes no
    [set_quota] call and does not exit through [sys.exit]. *)
Theorem set_quota_invalid_value_not_sent {F} (env : Env F) (options : Options)
    (role cpu_str ram_mb_str disk_mb_str : string) (t : list (cli_event F)) :
  py_float env cpu_str = None \/ py_int env ram_mb_str = None \/
    py_int env disk_mb_str = None ->
  exists e,
    do_set_quota env options role cpu_str ram_mb_str disk_mb_str t =
      (Failed e,
       t ++ [LogError "Invalid value"; NewClient (cluster options) (verbose options)]) /\
    (forall code, e <> SystemExit code) /\
    (MesosClientAPI_init env (cluster options) (verbose options) = Reply tt ->
     e = UnboundLocalError
           match py_float env cpu_str, py_int env ram_mb_str with
           | None, _ => "cpu"
           | Some _, None => "ram_mb"
           | Some _, Some _ => "disk_mb"
           end).
Proof.
  intros Hbad. unfold do_set_quota, convert_quota.
  destruct (py_float env cpu_str) as [c|] eqn:Hc;
    [destruct (py_int env ram_mb_str) as [r|] eqn:Hr;
     [destruct (py_int env disk_mb_str) as [d|] eqn:Hd|]|];
    [by destruct Hbad as [|[|]]| | |];
    unfold cbind, emit, ask, read_local, craise; simpl;
    destruct (MesosClientAPI_init env (cluster options) (verbose options)) as [[]|cls m];
    eexists; (split; [by rewrite <- app_assoc|]); by split.
Qed.

Lemma set_quota_invalid_value_not_sent_witness :
  exists e,
    do_set_quota sample_env (sample_options None) "www" "4" "sixteen" "100" [] =
      (Failed e, [LogError "Invalid value"; NewClient (Some "smf1") false]) /\
    (forall code, e <> SystemExit code) /\
    (Reply tt = Reply tt -> e = UnboundLocalError "ram_mb").
Proof.
  apply (set_quota_invalid_value_not_sent sample_env (sample_options None)
           "www" "4" "sixteen" "100" []).
  right. left. reflexivity.
Defined.

(** X15. A quota that can be read is sent once, as read.  When the three
    conversions succeed, the client is built and the scheduler answers with a
    response whose code has a name, [do_set_quota] makes exactly one
    [set_quota] call, with the converted values, logs the response, and
    returns if the code is [OK] and exits with status 1 otherwise. *)
Theorem set_quota_valid_is_sent_once {F} (env : Env F) (options : Options)
    (role cpu_str ram_mb_str disk_mb_str : string) (c : F) (r d : Z)
    (resp : Response) (name : string) (t : list (cli_event F)) :
  py_float env cpu_str = Some c ->
  py_int env ram_mb_str = Some r ->
  py_int env disk_mb_str = Some d ->
  MesosClientAPI_init env (cluster options) (verbose options) = Reply tt ->
  api_set_quota env role c r d = Reply resp ->
  ResponseCode_VALUES_TO_NAMES env (responseCode resp) = Some name ->
  do_set_quota env options role cpu_str ram_mb_str disk_mb_str t =
    (if Z.eqb (responseCode resp) (ResponseCode_OK env) then Done tt
     else Failed (SystemExit 1),
     t ++ [NewClient (cluster options) (verbose options);
           SetQuota role c r d;
           LogInfo ("Response from scheduler: " ++ name ++
                    " (message: " ++ str_opt (message resp) ++ ")")%string]).
Proof.
  intros Hc Hr Hd Hapi Hset Hname.
  unfold do_set_quota, convert_quota. rewrite Hc, Hr, Hd.
  unfold cbind, cret, ask, read_local, check_and_log_response, emit, craise. simpl.
  rewrite Hapi, Hset, Hname. simpl.
  destruct (Z.eqb (responseCode resp) (ResponseCode_OK env));
    unfold cbind, cret, craise; simpl; by rewrite <- !app_assoc.
Qed.

Lemma set_quota_valid_is_sent_once_witness :
  do_set_quota sample_env (sample_options None) "www" "128" "4096" "100" [] =
    (Failed (SystemExit 1),
     [NewClient (Some "smf1") false; SetQuota "www" 128%Z 4096%Z 100%Z;
      LogInfo "Response from scheduler: INVALID_REQUEST (message: None)"]).
Proof.
  apply (set_quota_valid_is_sent_once sample_env (sample_options None)
           "www" "128" "4096" "100" 128%Z 4096%Z 100%Z
           {| responseCode := 1; message := None |} "INVALID_REQUEST" []);
    reflexivity.
Defined.

(** ** The decorators of [requires] *)

(** X16. A command under [requires.exactly] runs, on the words of its line,
    exactly when the line has as many words as the decorator has names; one
    under [requires.at_least] runs exactly when the line has at least that
    many.  Otherwise nothing of the command runs: one fatal line is logged
    and the process exits with status 1. *)
Theorem requires_checks_the_word_count {F A} (args : list string)
    (fn_name : string) (fn_doc : option string) (fn : list string -> CM F A)
    (line : string) (t : list (cli_event F)) :
  (length (PyStr.split line) = length args ->
     exactly args fn_name fn_doc fn line t = fn (PyStr.split line) t) /\
  (length args <= length (PyStr.split line) ->
     at_least args fn_name fn_doc fn line t = fn (PyStr.split line) t) /\
  (length (PyStr.split line) <> length args ->
     exists help,
       exactly args fn_name fn_doc fn line t
         = (Failed (SystemExit 1), t ++ [LogFatal help])) /\
  (length (PyStr.split line) < length args ->
     exists help,
       at_least args fn_name fn_doc fn line t
         = (Failed (SystemExit 1), t ++ [LogFatal help])).
Proof.
  unfold exactly, at_least, wrap_function. repeat split.
  - intros ->. by rewrite Nat.eqb_refl.
  - intros H. apply Nat.leb_le in H. by rewrite H.
  - intros H. apply Nat.eqb_neq in H. rewrite H. by eexists.
  - intros H. apply Nat.leb_gt in H. rewrite H. by eexists.
Qed.

Lemma requires_checks_the_word_count_witness :
  exactly ["role"; "job"] "do_kill" None
    (fun words => cret Z (length words)) "  www   hello_world " ([] : list (cli_event Z))
    = (Done 2, []) /\
  at_least ["role"; "job"; "cmd"] "do_run" None
    (fun words => cret Z (length words)) "www hello ls -l /tmp" ([] : list (cli_event Z))
    = (Done 5, []) /\
  (exists help,
     exactly ["role"; "job"] "do_kill" None
       (fun words => cret Z (length words)) "www" ([] : list (cli_event Z))
       = (Failed (SystemExit 1), [LogFatal help])) /\
  (exists help,
     at_least ["role"; "job"; "cmd"] "do_run" None
       (fun words => cret Z (length words)) "www hello" ([] : list (cli_event Z))
       = (Failed (SystemExit 1), [LogFatal help])).
Proof.
  split; [|split; [|split]].
  - apply (proj1 (requires_checks_the_word_count (F := Z) ["role"; "job"] "do_kill" None
                    (fun words => cret Z (length words)) "  www   hello_world " [])).
    reflexivity.
  - apply (proj1 (proj2 (requires_checks_the_word_count (F := Z)
                    ["role"; "job"; "cmd"] "do_run" None
                    (fun words => cret Z (length words)) "www hello ls -l /tmp" []))).
    simpl. lia.
  - apply (proj1 (proj2 (proj2 (requires_checks_the_word_count (F := Z)
                    ["role"; "job"] "do_kill" None
                    (fun words => cret Z (length words)) "www" [])))).
    discriminate.
  - apply (proj2 (proj2 (proj2 (requires_checks_the_word_count (F := Z)
                    ["role"; "job"; "cmd"] "do_run" None
                    (fun words => cret Z (length words)) "www hello" [])))).
    simpl. lia.
Defined.

(** X17. [set_quota] with a number of words other than four never reaches
    the scheduler: the first line of its docstring is logged as the usage,
    with the pointer to the help subcommand, and the process exits with
    status 1.  With four words the command is the body of [do_set_quota] on
    them, and in no case does the call of the body fail for its number of
    arguments. *)
Theorem set_quota_command_usage {F} (env : Env F) (options : Options)
    (line : string) (t : list (cli_event F)) :
  (length (PyStr.split line) <> 4 ->
     set_quota_command env options line t =
       (Failed (SystemExit 1),
        t ++ [LogFatal
                ("usage: set_quota --cluster=CLUSTER role cpu ramMb diskMb" ++
                 String newline (String newline
                   "see the help subcommand for more details."))%string])) /\
  (forall role cpu_str ram_mb_str disk_mb_str,
     PyStr.split line = [role; cpu_str; ram_mb_str; disk_mb_str] ->
     set_quota_command env options line t =
       do_set_quota env options role cpu_str ram_mb_str disk_mb_str t) /\
  (forall msg, fst (set_quota_command env options line t) <> Failed (TypeError msg)).
Proof.
  unfold set_quota_command, exactly, wrap_function. cbv zeta.
  change (length ["role"; "cpu"; "ramMb"; "diskMb"]) with 4.
  split; [|split].
  - intros H. apply Nat.eqb_neq in H. by rewrite H.
  - intros role cpu_str ram_mb_str disk_mb_str ->. done.
  - intros msg.
    destruct (Nat.eqb (length (PyStr.split line)) 4) eqn:Hlen; simpl; [|done].
    apply Nat.eqb_eq in Hlen.
    destruct (PyStr.split line) as [|role [|cpu_str [|ram_mb_str [|disk_mb_str [|]]]]];
      try done.
    unfold do_set_quota, convert_quota, cbind, emit, ask, read_local, craise, cret,
      check_and_log_response.
    repeat (case_match; simplify_eq/=; try done).
Qed.

Lemma set_quota_command_usage_witness :
  set_quota_command sample_env (sample_options None) "www 4 4096" [] =
    (Failed (SystemExit 1),
     [LogFatal
        ("usage: set_quota --cluster=CLUSTER role cpu ramMb diskMb" ++
         String newline (String newline
           "see the help subcommand for more details."))%string]) /\
  set_quota_command sample_env (sample_options None) "www 4 4096 100" [] =
    do_set_quota sample_env (sample_options None) "www" "4" "4096" "100" [].
Proof.
  split.
  - apply (proj1 (set_quota_command_usage sample_env (sample_options None)
                    "www 4 4096" [])).
    discriminate.
  - apply (proj1 (proj2 (set_quota_command_usage sample_env (sample_options None)
                    "www 4 4096 100" []))).
    reflexivity.
Defined.

End MesosClientProofs.
